(** * markmap-mcp: identifier sanitizer, path guard, artifact writer and tools

    A shallow embedding of the TypeScript sources
      - lib/storage.ts        sanitizeAgentId, ensureAgentDir, writeFileSync,
                              saveOutputs, saveStructureOutputs.  The
                              repository holds this module twice: once
                              writing through open/write/fsync/close, and
                              once (next to renderFile.ts and fromOutline.ts)
                              writing through fs.promises.writeFile.  Both
                              bodies are embedded;
      - tools/renderFile.ts   validateFilePath, renderFileTool;
      - tools/fromOutline.ts  fromOutlineTool;
      - tools/customize.ts    customizeTool.

    JavaScript strings are sequences of UTF-16 code units; they are modelled
    as lists of [N].  Effects (file system, clock, calls into the markmap
    handler) are threaded through an explicit world by a state-and-exception
    monad.  What the sources call and do not define (the markmap handler, the
    parser utilities) is a parameter, the record [Env].  The diagnostic lines
    written with console.error are left out. *)

From Stdlib Require Import List NArith ZArith Bool Lia String Ascii.
Import ListNotations.

Set Implicit Arguments.

(* ================================================================== *)
(** * JavaScript strings *)
(* ================================================================== *)

Module JS.

Definition char := N.
Definition jsstring := list char.

(** An ASCII literal as a JavaScript string. *)
Definition lit (s : string) : jsstring :=
  map N_of_ascii (list_ascii_of_string s).

Definition char_eqb (a b : char) : bool := N.eqb a b.

Fixpoint str_eqb (a b : jsstring) : bool :=
  match a, b with
  | [], [] => true
  | x :: a', y :: b' => char_eqb x y && str_eqb a' b'
  | _, _ => false
  end.

Definition str_eq_dec : forall a b : jsstring, {a = b} + {a <> b} :=
  list_eq_dec N.eq_dec.

(** [!s] for a string [s]: only the empty string is falsy. *)
Definition falsy (s : jsstring) : bool :=
  match s with [] => true | _ => false end.

Definition in_range (lo hi c : N) : bool := (lo <=? c)%N && (c <=? hi)%N.

(** WhiteSpace and LineTerminator code units, the ones String.prototype.trim
    removes (ECMA-262, 22.1.3.32). *)
Definition isWhiteSpace (c : char) : bool :=
  in_range 9 13 c            (* TAB LF VT FF CR *)
  || (c =? 32)%N             (* SPACE *)
  || (c =? 160)%N            (* NBSP *)
  || (c =? 5760)%N           (* U+1680 *)
  || in_range 8192 8202 c    (* U+2000 .. U+200A *)
  || (c =? 8232)%N || (c =? 8233)%N   (* LS PS *)
  || (c =? 8239)%N || (c =? 8287)%N   (* U+202F U+205F *)
  || (c =? 12288)%N          (* U+3000 *)
  || (c =? 65279)%N.         (* U+FEFF *)

Fixpoint trimStart (s : jsstring) : jsstring :=
  match s with
  | [] => []
  | c :: r => if isWhiteSpace c then trimStart r else s
  end.

Fixpoint trimEnd (s : jsstring) : jsstring :=
  match s with
  | [] => []
  | c :: r =>
      match trimEnd r with
      | [] => if isWhiteSpace c then [] else [c]
      | r' => c :: r'
      end
  end.

Definition trim (s : jsstring) : jsstring := trimEnd (trimStart s).

(** [!s || s.trim().length === 0], the emptiness test used all over the tools. *)
Definition blank (s : jsstring) : bool :=
  falsy s || (List.length (trim s) =? 0)%nat.

(** [s.startsWith(p)] *)
Fixpoint startsWith (s p : jsstring) : bool :=
  match p, s with
  | [], _ => true
  | y :: p', x :: s' => char_eqb x y && startsWith s' p'
  | _ :: _, [] => false
  end.

(** [s.replace(/[...]/g, '')] for a one-character class: every code unit the
    class matches is deleted, scanning left to right. *)
Fixpoint deleteAll (cls : char -> bool) (s : jsstring) : jsstring :=
  match s with
  | [] => []
  | c :: r => if cls c then deleteAll cls r else c :: deleteAll cls r
  end.

Definition isLower (c : char) : bool := in_range 97 122 c.
Definition isUpper (c : char) : bool := in_range 65 90 c.
Definition isDigit (c : char) : bool := in_range 48 57 c.

(** ASCII case folding of [toLowerCase]; the Kelvin sign U+212A is the one
    further code unit whose lower case is an ASCII letter. *)
Definition lowerChar (c : char) : char :=
  if isUpper c then (c + 32)%N else if (c =? 8490)%N then 107%N else c.

Definition toLowerCase (s : jsstring) : jsstring := map lowerChar s.

(** Decimal rendering of a non-negative integer, [String(n)]. *)
Fixpoint digitsFuel (fuel : nat) (n : N) (acc : jsstring) : jsstring :=
  match fuel with
  | O => acc
  | S f =>
      let d := (48 + n mod 10)%N in
      if (n <? 10)%N then d :: acc else digitsFuel f (n / 10)%N (d :: acc)
  end.

Definition numToString (n : N) : jsstring :=
  digitsFuel (S (N.to_nat (N.log2 n))) n [].

End JS.
Import JS.

(* ================================================================== *)
(** * The path module (POSIX flavour) *)
(* ================================================================== *)

Module Path.

Definition SLASH : char := 47%N.
Definition DOT : char := 46%N.

Definition isSlash (c : char) : bool := char_eqb c SLASH.

(** The segments between separators. *)
Fixpoint splitSlash (s : jsstring) : list jsstring :=
  match s with
  | [] => [[]]
  | c :: r =>
      if isSlash c then [] :: splitSlash r
      else match splitSlash r with
           | seg :: segs => (c :: seg) :: segs
           | [] => [[c]]
           end
  end.

Fixpoint joinSlash (segs : list jsstring) : jsstring :=
  match segs with
  | [] => []
  | [s] => s
  | s :: r => s ++ SLASH :: joinSlash r
  end.

Definition isDot (s : jsstring) : bool := str_eqb s [DOT].
Definition isDotDot (s : jsstring) : bool := str_eqb s [DOT; DOT].

(** normalizeString of lib/path.js, on segments: empty and "." segments are
    dropped, ".." removes the segment before it; above the start of the path
    ".." is kept when [allowAboveRoot] and dropped otherwise.  [acc] is the
    result so far, last segment first. *)
Fixpoint normalizeSegs (allowAboveRoot : bool) (acc : list jsstring)
         (segs : list jsstring) : list jsstring :=
  match segs with
  | [] => rev acc
  | s :: r =>
      if falsy s || isDot s then normalizeSegs allowAboveRoot acc r
      else if isDotDot s then
        match acc with
        | top :: acc' =>
            if isDotDot top
            then normalizeSegs allowAboveRoot
                   (if allowAboveRoot then s :: acc else acc) r
            else normalizeSegs allowAboveRoot acc' r
        | [] =>
            normalizeSegs allowAboveRoot
              (if allowAboveRoot then [s] else []) r
        end
      else normalizeSegs allowAboveRoot (s :: acc) r
  end.

Definition normalizeString (path : jsstring) (allowAboveRoot : bool) : jsstring :=
  joinSlash (normalizeSegs allowAboveRoot [] (splitSlash path)).

Definition isAbsolute (p : jsstring) : bool :=
  match p with c :: _ => isSlash c | [] => false end.

Definition endsWithSlash (p : jsstring) : bool :=
  match rev p with c :: _ => isSlash c | [] => false end.

(** [path.resolve(p)], with [cwd] the value of [process.cwd()]. *)
Definition resolve (cwd p : jsstring) : jsstring :=
  let r0 := if falsy p then [] else p ++ [SLASH] in
  let '(r1, abs) :=
    if isAbsolute p then (r0, true)
    else if falsy cwd then (r0, false)
    else (cwd ++ SLASH :: r0, isAbsolute cwd) in
  let n := normalizeString r1 (negb abs) in
  if abs then SLASH :: n
  else if falsy n then [DOT] else n.

(** [path.normalize(p)] *)
Definition normalize (p : jsstring) : jsstring :=
  if falsy p then [DOT]
  else
    let abs := isAbsolute p in
    let trailing := endsWithSlash p in
    let n := normalizeString p (negb abs) in
    if falsy n then
      (if abs then [SLASH] else if trailing then [DOT; SLASH] else [DOT])
    else
      let n' := if trailing then n ++ [SLASH] else n in
      if abs then SLASH :: n' else n'.

(** [path.join(a, b)] *)
Definition join (a b : jsstring) : jsstring :=
  match falsy a, falsy b with
  | true, true => [DOT]
  | true, false => normalize b
  | false, true => normalize a
  | false, false => normalize (a ++ SLASH :: b)
  end.

(** The last path component, trailing separators ignored. *)
Definition lastComponent (p : jsstring) : jsstring :=
  last (filter (fun s => negb (falsy s)) (splitSlash p)) [].

(** Position of the last "." of [s], if any. *)
Fixpoint lastDot (s : jsstring) (i : nat) (found : option nat) : option nat :=
  match s with
  | [] => found
  | c :: r => lastDot r (S i) (if char_eqb c DOT then Some i else found)
  end.

(** [path.extname(p)]: from the last "." of the last component to its end;
    empty when there is none, when it is the first character of the
    component, or when the component is "..". *)
Definition extname (p : jsstring) : jsstring :=
  let b := lastComponent p in
  if isDotDot b then []
  else match lastDot b 0 None with
       | None | Some O => []
       | Some i => skipn i b
       end.

Fixpoint dropWhile (f : char -> bool) (s : jsstring) : jsstring :=
  match s with
  | [] => []
  | c :: r => if f c then dropWhile f r else s
  end.

(** [path.dirname(p)]: scanning from the end down to index 1, the trailing
    separators and then the last component are skipped; the path up to the
    separator found there is returned. *)
Definition dirname (p : jsstring) : jsstring :=
  match p with
  | [] => [DOT]
  | c0 :: tl =>
      let hasRoot := isSlash c0 in
      let r := dropWhile (fun c => negb (isSlash c)) (dropWhile isSlash (rev tl)) in
      match r with
      | [] => if hasRoot then [SLASH] else [DOT]
      | _ :: _ =>
          let e := List.length r in
          if hasRoot && (e =? 1)%nat then [SLASH; SLASH] else firstn e p
      end
  end.

End Path.
Import Path.

(* ================================================================== *)
(** * Effects: the world, exceptions, and the monad of the tools *)
(* ================================================================== *)

Module Effects.

(** A thrown value: an [Error] with its message, or something that is not
    an instance of [Error]. *)
Inductive exn :=
| Error (message : jsstring)
| NonError.

(** [error instanceof Error ? error.message : dflt] *)
Definition messageOr (e : exn) (dflt : jsstring) : jsstring :=
  match e with Error m => m | NonError => dflt end.

Record OutlineItem := mkItem { text : jsstring; level : Z }.

(** The keys of an options object, with the JSON text of their values. *)
Definition Options := list (jsstring * jsstring).

(** What an operation does to the outside, in the order it does it. *)
Inductive event :=
| EvMkdir (dir : jsstring)
| EvOpen (path : jsstring)
| EvWrite (path content : jsstring)
| EvFsync (path : jsstring)
| EvClose (path : jsstring)
| EvWriteFile (path content : jsstring)
| EvReadFile (path : jsstring)
| EvStat (path : jsstring)
| EvNewHandler
| EvParseMarkdown (markdown : jsstring)
| EvRenderToSVG (markdown : jsstring)
| EvApplyCustomization (markdown theme : jsstring)
                       (colors : option (list jsstring))
| EvGetColorScheme (theme : jsstring)
| EvOutlineToMarkdown (items : list OutlineItem).

(** The world an operation runs in.  A file has the content the operating
    system shows ([cache], volatile) and the content that has reached the
    disk ([stable]); [fsync] copies the first to the second.  [faults] is the
    schedule of file-system failures: each file-system call consumes its head
    and throws it when it is an exception.  [trace] is the log of events, the
    latest first. *)
Record World := mkWorld {
  cache : jsstring -> option jsstring;
  stable : jsstring -> option jsstring;
  sizes : jsstring -> N;
  now : N;
  faults : list (option exn);
  trace : list event
}.

Definition M (A : Type) : Type := World -> (exn + A) * World.

Definition ret {A} (a : A) : M A := fun w => (inr a, w).

Definition throw {A} (e : exn) : M A := fun w => (inl e, w).

Definition bind {A B} (m : M A) (k : A -> M B) : M B :=
  fun w => match m w with
           | (inr a, w') => k a w'
           | (inl e, w') => (inl e, w')
           end.

(** [try { m } catch (e) { h e }] *)
Definition tryCatch {A} (m : M A) (h : exn -> M A) : M A :=
  fun w => match m w with
           | (inl e, w') => h e w'
           | r => r
           end.

(** [try { m } finally { f }] *)
Definition tryFinally {A} (m : M A) (f : M unit) : M A :=
  fun w => match m w with
           | (r, w') => match f w' with
                        | (inl e, w'') => (inl e, w'')
                        | (inr _, w'') => (r, w'')
                        end
           end.

(** A promise settled without being awaited: its outcome as a value. *)
Definition settle {A} (m : M A) : M (exn + A) :=
  fun w => match m w with (r, w') => (inr r, w') end.

Definition liftE {A} (r : exn + A) : M A := fun w => (r, w).

Definition log (ev : event) : M unit :=
  fun w => (inr tt, mkWorld (cache w) (stable w) (sizes w) (now w) (faults w)
                            (ev :: trace w)).

(** A file-system call: logged, then failing when the schedule says so. *)
Definition fscall (ev : event) : M unit :=
  fun w =>
    let w' := mkWorld (cache w) (stable w) (sizes w) (now w)
                      (tl (faults w)) (ev :: trace w) in
    match faults w with
    | Some e :: _ => (inl e, w')
    | _ => (inr tt, w')
    end.

(** A call into the markmap handler or the parser utilities: logged, and
    returning or throwing as the callee does. *)
Definition call {A} (ev : event) (r : exn + A) : M A :=
  bind (log ev) (fun _ => liftE r).

Definition upd (f : jsstring -> option jsstring) (k v : jsstring)
  : jsstring -> option jsstring :=
  fun k' => if str_eq_dec k' k then Some v else f k'.

Definition setCache (p content : jsstring) : M unit :=
  fun w => (inr tt, mkWorld (upd (cache w) p content) (stable w) (sizes w)
                            (now w) (faults w) (trace w)).

Definition flush (p : jsstring) : M unit :=
  fun w => (inr tt,
            mkWorld (cache w)
                    (match cache w p with
                     | Some c => upd (stable w) p c
                     | None => stable w
                     end)
                    (sizes w) (now w) (faults w) (trace w)).

Definition dateNow : M N := fun w => (inr (now w), w).

End Effects.
Import Effects.

Declare Scope js_scope.
Delimit Scope js_scope with js.
Notation "x <- m ;; k" := (bind m (fun x => k))
  (at level 61, m at next level, right associativity) : js_scope.
Notation "m ;; k" := (bind m (fun _ => k))
  (at level 61, right associativity) : js_scope.
Notation "' pat <- m ;; k" := (bind m (fun x => match x with pat => k end))
  (at level 61, pat pattern, m at next level, right associativity) : js_scope.
Open Scope js_scope.

(* ================================================================== *)
(** * The environment of a server process *)
(* ================================================================== *)

(** What the sources use and do not define: the working directory, the
    configured storage root, the markmap handler (lib/markmap-handler.ts), the
    parser utilities (utils/markdown-parser.ts), [Date.prototype.toISOString]
    and the literal text of the HTML page template.  A handler method returns
    its value or the exception it throws. *)
Record Env := mkEnv {
  cwd : jsstring;
  MARKMAP_STORAGE_ROOT : jsstring;
  INode : Type;
  newHandler : exn + unit;
  parseMarkdown : jsstring -> exn + (INode * option (list jsstring));
  renderToSVG : jsstring -> option Options -> exn + jsstring;
  applyCustomization :
    jsstring -> jsstring -> option (list jsstring) -> option Options ->
    exn + jsstring;
  getColorScheme : jsstring -> exn + list jsstring;
  countNodes : INode -> exn + N;
  calculateDepth : INode -> exn + N;
  outlineToMarkdown : list OutlineItem -> exn + jsstring;
  toISOString : N -> jsstring;
  htmlChunk : nat -> jsstring
}.

(* ================================================================== *)
(** * lib/storage.ts *)
(* ================================================================== *)

Record SavedFiles := mkSaved { svg : jsstring; html : jsstring; md : jsstring }.

Record SavedStructureFiles := mkSavedStructure
  { smd : jsstring; sjson : jsstring }.

(** The character class [[^a-zA-Z0-9._-]]: what it does NOT exclude. *)
Definition isAgentIdChar (c : char) : bool :=
  isLower c || isUpper c || isDigit c
  || char_eqb c 46%N || char_eqb c 95%N || char_eqb c 45%N.

Definition notAgentIdChar (c : char) : bool := negb (isAgentIdChar c).

Definition sanitizeAgentId (agentId : jsstring) : exn + jsstring :=
  if falsy agentId || (List.length (trim agentId) =? 0)%nat
  then inl (Error (lit "agent_id cannot be empty"))
  else
    let sanitized := deleteAll notAgentIdChar agentId in
    if (List.length sanitized =? 0)%nat
    then inl (Error (lit
           "agent_id contains no valid characters (allowed: a-zA-Z0-9._-)"))
    else inr sanitized.

Section Storage.

Variable env : Env.

(** File-system calls name a file by the absolute path of their argument. *)
Definition abspath (p : jsstring) : jsstring := resolve (cwd env) p.

Definition mkdirRecursive (dir : jsstring) : M unit :=
  fscall (EvMkdir (abspath dir)).

(** [openSync(p, 'w')]: the file is created or truncated; the descriptor is
    identified with the file it is open on. *)
Definition openSync (p : jsstring) : M jsstring :=
  fscall (EvOpen (abspath p)) ;;
  setCache (abspath p) [] ;;
  ret (abspath p).

Definition writeSync (fd content : jsstring) : M unit :=
  fscall (EvWrite fd content) ;; setCache fd content.

Definition fsyncSync (fd : jsstring) : M unit :=
  fscall (EvFsync fd) ;; flush fd.

Definition closeSync (fd : jsstring) : M unit :=
  fscall (EvClose fd).

(** [fs.promises.writeFile(p, content, 'utf-8')] *)
Definition writeFile (p content : jsstring) : M unit :=
  fscall (EvWriteFile (abspath p) content) ;; setCache (abspath p) content.

Definition writeFileSync (filePath content : jsstring) : M unit :=
  fd <- openSync filePath ;;
  tryFinally (writeSync fd content ;; fsyncSync fd) (closeSync fd).

Definition ensureAgentDir (agentId : jsstring) : M jsstring :=
  sanitized <- liftE (sanitizeAgentId agentId) ;;
  let agentDir := join (MARKMAP_STORAGE_ROOT env) sanitized in
  mkdirRecursive agentDir ;;
  ret agentDir.

(** The page template with its two holes filled. *)
Definition generateHtml (content title : jsstring) : jsstring :=
  htmlChunk env 0 ++ title ++ htmlChunk env 1 ++ content ++ htmlChunk env 2.

Definition EM_DASH : char := 8212%N.

Definition pageTitle (toolName : jsstring) (timestamp : N) : jsstring :=
  lit "Markmap " ++ [EM_DASH] ++ lit " " ++ toolName ++ lit " ("
  ++ toISOString env timestamp ++ lit ")".

Definition baseNameOf (toolName : jsstring) (timestamp : N) : jsstring :=
  toolName ++ lit "_" ++ numToString timestamp.

(** saveOutputs of lib/storage.ts. *)
Definition saveOutputs (agentId toolName svgContent markdownContent : jsstring)
  : M SavedFiles :=
  agentDir <- ensureAgentDir agentId ;;
  timestamp <- dateNow ;;
  let baseName := baseNameOf toolName timestamp in
  let svgPath := join agentDir (baseName ++ lit ".svg") in
  let htmlPath := join agentDir (baseName ++ lit ".html") in
  let mdPath := join agentDir (baseName ++ lit ".md") in
  let title := pageTitle toolName timestamp in
  let htmlContent := generateHtml markdownContent title in
  writeFileSync svgPath svgContent ;;
  writeFileSync htmlPath htmlContent ;;
  writeFileSync mdPath markdownContent ;;
  ret (mkSaved svgPath htmlPath mdPath).

(** saveStructureOutputs of lib/storage.ts; [structureJson] is
    [JSON.stringify(structureData, null, 2)]. *)
Definition saveStructureOutputs
           (agentId toolName markdownContent structureJson : jsstring)
  : M SavedStructureFiles :=
  agentDir <- ensureAgentDir agentId ;;
  timestamp <- dateNow ;;
  let baseName := baseNameOf toolName timestamp in
  let mdPath := join agentDir (baseName ++ lit ".md") in
  let jsonPath := join agentDir (baseName ++ lit ".json") in
  writeFileSync mdPath markdownContent ;;
  writeFileSync jsonPath structureJson ;;
  ret (mkSavedStructure mdPath jsonPath).

(** [await Promise.all([p1, ...])]: the promises have all been started; the
    first rejection, in array order of settlement, rejects the whole. *)
Fixpoint promiseAll (ps : list (M unit)) : M unit :=
  match ps with
  | [] => ret tt
  | p :: rest =>
      r <- settle p ;;
      rs <- settle (promiseAll rest) ;;
      match r, rs with
      | inl e, _ => throw e
      | inr _, inl e => throw e
      | inr _, inr _ => ret tt
      end
  end.

(** generateHtml of the storage module that stands next to renderFile.ts and
    fromOutline.ts: its page shows the title twice and embeds the SVG. *)
Definition generateHtml_svg (svgContent title : jsstring) : jsstring :=
  htmlChunk env 0 ++ title ++ htmlChunk env 1 ++ title ++ htmlChunk env 2
  ++ svgContent ++ htmlChunk env 3.

(** saveOutputs of that module: the three files go through
    [fs.promises.writeFile]. *)
Definition saveOutputs_writeFile
           (agentId toolName svgContent markdownContent : jsstring)
  : M SavedFiles :=
  agentDir <- ensureAgentDir agentId ;;
  timestamp <- dateNow ;;
  let baseName := baseNameOf toolName timestamp in
  let svgPath := join agentDir (baseName ++ lit ".svg") in
  let htmlPath := join agentDir (baseName ++ lit ".html") in
  let mdPath := join agentDir (baseName ++ lit ".md") in
  let title := pageTitle toolName timestamp in
  let htmlContent := generateHtml_svg svgContent title in
  promiseAll [ writeFile svgPath svgContent;
               writeFile htmlPath htmlContent;
               writeFile mdPath markdownContent ] ;;
  ret (mkSaved svgPath htmlPath mdPath).

Definition saveStructureOutputs_writeFile
           (agentId toolName markdownContent structureJson : jsstring)
  : M SavedStructureFiles :=
  agentDir <- ensureAgentDir agentId ;;
  timestamp <- dateNow ;;
  let baseName := baseNameOf toolName timestamp in
  let mdPath := join agentDir (baseName ++ lit ".md") in
  let jsonPath := join agentDir (baseName ++ lit ".json") in
  promiseAll [ writeFile mdPath markdownContent;
               writeFile jsonPath structureJson ] ;;
  ret (mkSavedStructure mdPath jsonPath).

End Storage.

(* ================================================================== *)
(** * Tool responses *)
(* ================================================================== *)

(** The error kinds of a tool response. *)
Inductive ErrorType :=
| ValidationError
| ResourceLimitError
| PathSecurityError
| FileSystemError
| RenderError.

Inductive ToolResult (O : Type) :=
| ToolResponse (text : jsstring) (structuredContent : O)
| ToolError (text : jsstring) (errorType : ErrorType).

Arguments ToolResponse {O} text structuredContent.
Arguments ToolError {O} text errorType.

Definition isSuccess {O} (r : ToolResult O) : bool :=
  match r with ToolResponse _ _ => true | ToolError _ _ => false end.

Definition errorTypeOf {O} (r : ToolResult O) : option ErrorType :=
  match r with ToolResponse _ _ => None | ToolError _ t => Some t end.

(** The signature of saveOutputs, of which the repository has two bodies. *)
Definition Saver := jsstring -> jsstring -> jsstring -> jsstring -> M SavedFiles.

(** [Object.keys(features || {})] *)
Definition featureKeys (features : option (list jsstring)) : list jsstring :=
  match features with Some ks => ks | None => [] end.

(* ================================================================== *)
(** * tools/renderFile.ts *)
(* ================================================================== *)

Module RenderFile.

Record Input := mkInput {
  agent_id : jsstring;
  file_path : jsstring;
  save_output : bool;
  output_path : option jsstring;
  options : option Options
}.

(** [file_size_kb] is [Math.round(fileSizeKB * 100) / 100]; the record keeps
    the rounded number of hundredths. *)
Record Output := mkOutput {
  o_svg_content : jsstring;
  o_file_path : jsstring;
  o_saved_path : option jsstring;
  o_node_count : N;
  o_depth : N;
  o_features_used : list jsstring;
  o_file_size_kb_hundredths : N;
  o_saved_files : SavedFiles
}.

Section WithEnv.

Variable env : Env.

Definition validateFilePath (filePath : jsstring) (agentId : option jsstring)
  : bool :=
  let resolved := resolve (cwd env) filePath in
  let cwd' := resolve (cwd env) (cwd env) in
  if startsWith resolved cwd' then true
  else
    match agentId with
    | Some a =>
        if negb (falsy a) then
          let sanitized := deleteAll notAgentIdChar a in
          if (0 <? List.length sanitized)%nat then
            let agentDir :=
              resolve (cwd env) (join (MARKMAP_STORAGE_ROOT env) sanitized) in
            if startsWith resolved agentDir then true else false
          else false
        else false
    | None => false
    end.

Definition readFile (p : jsstring) : M jsstring :=
  fscall (EvReadFile (abspath env p)) ;;
  (fun w => match cache w (abspath env p) with
            | Some c => (inr c, w)
            | None => (inl (Error (lit "ENOENT: no such file or directory")), w)
            end).

Definition statSize (p : jsstring) : M N :=
  fscall (EvStat (abspath env p)) ;;
  (fun w => (inr (sizes w (abspath env p)), w)).

Definition twoDigits (n : N) : jsstring :=
  [(48 + n / 10)%N; (48 + n mod 10)%N].

(** [(size / 1024 / 1024).toFixed(2)] *)
Definition toFixed2MB (size : N) : jsstring :=
  let h := ((size * 200 + 1048576) / 2097152)%N in
  numToString (h / 100) ++ lit "." ++ twoDigits (h mod 100).

(** [Math.round(size / 1024 * 100)] *)
Definition kbHundredths (size : N) : N := ((size * 200 + 1024) / 2048)%N.

(** The legacy block [if (input.save_output && input.output_path) ...]: it
    leaves the function with a response ([inl]) or goes on with the value of
    [saved_path] ([inr]). *)
Definition legacySave (input : Input) (svg_content : jsstring)
  : M (ToolResult Output + option jsstring) :=
  match output_path input with
  | Some out =>
      if save_output input && negb (falsy out) then
        tryCatch
          (if negb (validateFilePath out (Some (agent_id input))) then
             ret (inl (ToolError
               (lit "Error: Output path must be within the current working directory or agent storage directory")
               ValidationError))
           else
             let outputDir := dirname out in
             mkdirRecursive env outputDir ;;
             writeFile env out svg_content ;;
             ret (inr (Some out)))
          (fun e => ret (inl (ToolError
             (lit "Error saving file: " ++ messageOr e (lit "Could not save SVG"))
             FileSystemError)))
      else ret (inr None)
  | None => ret (inr None)
  end.

Definition renderFileTool (save : Saver) (input : Input)
  : M (ToolResult Output) :=
  tryCatch
    (match sanitizeAgentId (agent_id input) with
     | inl e =>
         ret (ToolError (lit "Error: " ++ messageOr e (lit "Invalid agent_id"))
                        ValidationError)
     | inr _ =>
     if blank (file_path input) then
       ret (ToolError (lit "Error: File path cannot be empty") ValidationError)
     else
     let ext := toLowerCase (extname (file_path input)) in
     if negb (str_eqb ext (lit ".md")) && negb (str_eqb ext (lit ".markdown"))
     then
       ret (ToolError
              (lit "Error: Invalid file extension '" ++ ext
               ++ lit "'. Only .md and .markdown files are supported")
              ValidationError)
     else
     if negb (validateFilePath (file_path input) (Some (agent_id input))) then
       ret (ToolError
              (lit "Error: File path must be within the current working directory or agent storage directory")
              ValidationError)
     else
     rd <- settle (markdown_content <- readFile (file_path input) ;;
                   size <- statSize (file_path input) ;;
                   ret (markdown_content, size)) ;;
     match rd with
     | inl e =>
         ret (ToolError
                (lit "File Error: " ++ messageOr e (lit "Could not read file"))
                FileSystemError)
     | inr (markdown_content, size) =>
     if (5 * 1024 * 1024 <? size)%N then
       ret (ToolError
              (lit "Error: File too large (" ++ toFixed2MB size
               ++ lit "MB). Maximum size is 5MB")
              ValidationError)
     else
     call EvNewHandler (newHandler env) ;;
     '(root, features) <-
        call (EvParseMarkdown markdown_content)
             (parseMarkdown env markdown_content) ;;
     nodeCount <- liftE (countNodes env root) ;;
     depth <- liftE (calculateDepth env root) ;;
     svg_content <-
        call (EvRenderToSVG markdown_content)
             (renderToSVG env markdown_content (options input)) ;;
     legacy <- legacySave input svg_content ;;
     match legacy with
     | inl response => ret response
     | inr saved_path =>
     saved_files <-
        save (agent_id input) (lit "renderFile") svg_content markdown_content ;;
     let output :=
       mkOutput svg_content (file_path input) saved_path nodeCount depth
                (featureKeys features) (kbHundredths size) saved_files in
     let message :=
       match saved_path with
       | Some sp =>
           lit "Successfully rendered " ++ file_path input ++ lit " ("
           ++ numToString nodeCount ++ lit " nodes) and saved to " ++ sp
           ++ lit ". Auto-saved to " ++ svg saved_files
       | None =>
           lit "Successfully rendered " ++ file_path input ++ lit " with "
           ++ numToString nodeCount ++ lit " nodes. Files saved to "
           ++ svg saved_files
       end in
     ret (ToolResponse message output)
     end
     end
     end)
    (fun e =>
       ret (ToolError
              (lit "Error: " ++ messageOr e (lit "Unknown error occurred"))
              RenderError)).

End WithEnv.

End RenderFile.

(* ================================================================== *)
(** * tools/fromOutline.ts *)
(* ================================================================== *)

Module FromOutline.

Record Input := mkInput {
  agent_id : jsstring;
  outline_items : list OutlineItem;
  options : option Options
}.

Record Output := mkOutput {
  o_svg_content : jsstring;
  o_markdown_generated : jsstring;
  o_node_count : N;
  o_depth : N;
  o_features_used : list jsstring;
  o_saved_files : SavedFiles
}.

(** [!item.text || item.text.trim().length === 0] *)
Definition badText (item : OutlineItem) : bool := blank (text item).

(** [!item.level || item.level < 1 || item.level > 6] *)
Definition badLevel (item : OutlineItem) : bool :=
  (level item =? 0)%Z || (level item <? 1)%Z || (6 <? level item)%Z.

(** The loop over the items, [i] being the index of the head of [items]: the
    response of the first item that fails a test, if there is one. *)
Fixpoint validateItems (i : N) (items : list OutlineItem)
  : option (ToolResult Output) :=
  match items with
  | [] => None
  | item :: rest =>
      if badText item then
        Some (ToolError (lit "Error: Outline item " ++ numToString (i + 1)
                         ++ lit " has empty text") ValidationError)
      else if badLevel item then
        Some (ToolError (lit "Error: Outline item " ++ numToString (i + 1)
                         ++ lit " has invalid level (must be 1-6)")
                        ValidationError)
      else validateItems (i + 1) rest
  end.

Section WithEnv.

Variable env : Env.

Definition fromOutlineTool (save : Saver) (input : Input)
  : M (ToolResult Output) :=
  tryCatch
    (match sanitizeAgentId (agent_id input) with
     | inl e =>
         ret (ToolError (lit "Error: " ++ messageOr e (lit "Invalid agent_id"))
                        ValidationError)
     | inr _ =>
     if (List.length (outline_items input) =? 0)%nat then
       ret (ToolError (lit "Error: Outline items cannot be empty")
                      ValidationError)
     else
     match validateItems 0 (outline_items input) with
     | Some response => ret response
     | None =>
     markdown_generated <-
        call (EvOutlineToMarkdown (outline_items input))
             (outlineToMarkdown env (outline_items input)) ;;
     call EvNewHandler (newHandler env) ;;
     '(root, features) <-
        call (EvParseMarkdown markdown_generated)
             (parseMarkdown env markdown_generated) ;;
     nodeCount <- liftE (countNodes env root) ;;
     depth <- liftE (calculateDepth env root) ;;
     svg_content <-
        call (EvRenderToSVG markdown_generated)
             (renderToSVG env markdown_generated (options input)) ;;
     let features_used := featureKeys features in
     saved_files <-
        save (agent_id input) (lit "fromOutline") svg_content
             markdown_generated ;;
     let output :=
       mkOutput svg_content markdown_generated nodeCount depth features_used
                saved_files in
     ret (ToolResponse
            (lit "Successfully generated mindmap from "
             ++ numToString (N.of_nat (List.length (outline_items input)))
             ++ lit " outline items (" ++ numToString nodeCount
             ++ lit " nodes total). Files saved to " ++ svg saved_files)
            output)
     end
     end)
    (fun e =>
       ret (ToolError
              (lit "Error: " ++ messageOr e (lit "Unknown error occurred"))
              RenderError)).

End WithEnv.

End FromOutline.

(* ================================================================== *)
(** * tools/customize.ts *)
(* ================================================================== *)

Module Customize.

Record Input := mkInput {
  agent_id : jsstring;
  markdown_content : jsstring;
  theme : option jsstring;
  color_scheme : option (list jsstring);
  options : option Options
}.

Record Summary := mkSummary {
  s_theme : jsstring;
  s_custom_colors : bool;
  s_custom_options : list jsstring
}.

Record Output := mkOutput {
  o_svg_content : jsstring;
  o_theme_applied : jsstring;
  o_colors_used : list jsstring;
  o_node_count : N;
  o_customization_summary : Summary;
  o_saved_files : SavedFiles
}.

Definition validThemes : list jsstring :=
  [lit "default"; lit "dark"; lit "colorful"; lit "minimal"].

(** [validThemes.includes(t)] *)
Definition includes (l : list jsstring) (t : jsstring) : bool :=
  existsb (str_eqb t) l.

Definition isHexDigit (c : char) : bool :=
  isDigit c || in_range 65 70 c || in_range 97 102 c.

(** [/^#[0-9A-Fa-f]{6}$/.test(s)] *)
Definition hexColorRegex_test (s : jsstring) : bool :=
  match s with
  | [h; a; b; c; d; e; f] =>
      char_eqb h 35%N && forallb isHexDigit [a; b; c; d; e; f]
  | _ => false
  end.

(** The loop over the colours: index and value of the first one that fails
    the pattern. *)
Fixpoint firstBadColor (i : N) (colors : list jsstring)
  : option (N * jsstring) :=
  match colors with
  | [] => None
  | c :: rest =>
      if negb (hexColorRegex_test c) then Some (i, c)
      else firstBadColor (i + 1) rest
  end.

(** [lines.join(', ')] *)
Fixpoint joinComma (l : list jsstring) : jsstring :=
  match l with
  | [] => []
  | [s] => s
  | s :: r => s ++ lit ", " ++ joinComma r
  end.

(** [input.theme] as a condition: present and not the empty string. *)
Definition truthy (t : option jsstring) : bool :=
  match t with Some s => negb (falsy s) | None => false end.

Section WithEnv.

Variable env : Env.

Definition customizeTool (save : Saver) (input : Input)
  : M (ToolResult Output) :=
  tryCatch
    (match sanitizeAgentId (agent_id input) with
     | inl e =>
         ret (ToolError (lit "Error: " ++ messageOr e (lit "Invalid agent_id"))
                        ValidationError)
     | inr _ =>
     if blank (markdown_content input) then
       ret (ToolError (lit "Error: Markdown content cannot be empty")
                      ValidationError)
     else
     if truthy (theme input)
        && negb (includes validThemes (match theme input with
                                       | Some t => t | None => [] end))
     then
       ret (ToolError
              (lit "Error: Invalid theme '"
               ++ match theme input with Some t => t | None => [] end
               ++ lit "'. Valid themes: " ++ joinComma validThemes)
              ValidationError)
     else
     match match color_scheme input with
           | Some cs => firstBadColor 0 cs
           | None => None
           end with
     | Some (i, c) =>
         ret (ToolError
                (lit "Error: Invalid hex color at index " ++ numToString i
                 ++ lit ": '" ++ c ++ lit "'. Use format #RRGGBB")
                ValidationError)
     | None =>
     call EvNewHandler (newHandler env) ;;
     let theme' := if truthy (theme input)
                   then match theme input with Some t => t | None => [] end
                   else lit "default" in
     svg_content <-
        call (EvApplyCustomization (markdown_content input) theme'
                                   (color_scheme input))
             (applyCustomization env (markdown_content input) theme'
                                 (color_scheme input) (options input)) ;;
     '(root, _) <-
        call (EvParseMarkdown (markdown_content input))
             (parseMarkdown env (markdown_content input)) ;;
     node_count <- liftE (countNodes env root) ;;
     colors_used <-
        match color_scheme input with
        | Some cs => ret cs
        | None => call (EvGetColorScheme theme') (getColorScheme env theme')
        end ;;
     let custom_options :=
       match options input with Some o => map fst o | None => [] end in
     saved_files <-
        save (agent_id input) (lit "customize") svg_content
             (markdown_content input) ;;
     let output :=
       mkOutput svg_content theme' colors_used node_count
                (mkSummary theme'
                           (match color_scheme input with
                            | Some _ => true | None => false end)
                           custom_options)
                saved_files in
     let customizations :=
       (if negb (str_eqb theme' (lit "default"))
        then [lit "theme: " ++ theme'] else [])
       ++ match color_scheme input with
          | Some cs => [lit "custom colors ("
                        ++ numToString (N.of_nat (List.length cs)) ++ lit ")"]
          | None => []
          end
       ++ (if (0 <? List.length custom_options)%nat
           then [lit "custom options ("
                 ++ numToString (N.of_nat (List.length custom_options))
                 ++ lit ")"]
           else []) in
     let message :=
       if (0 <? List.length customizations)%nat then
         lit "Successfully generated customized mindmap with "
         ++ numToString node_count ++ lit " nodes. Applied: "
         ++ joinComma customizations ++ lit ". Files saved to "
         ++ svg saved_files
       else
         lit "Successfully generated mindmap with " ++ numToString node_count
         ++ lit " nodes using default theme. Files saved to "
         ++ svg saved_files in
     ret (ToolResponse message output)
     end
     end)
    (fun e =>
       ret (ToolError
              (lit "Error: " ++ messageOr e (lit "Unknown error occurred"))
              RenderError)).

End WithEnv.

End Customize.

(* ================================================================== *)
(** * Specification-side notions *)
(* ================================================================== *)

(** The sanitizer as the design states it: [Stripped s r] when [r] is [s]
    with exactly the characters outside letters, digits, ".", "_" and "-"
    deleted, the others kept in their order. *)
Inductive Stripped : jsstring -> jsstring -> Prop :=
| Stripped_nil : Stripped [] []
| Stripped_keep c s r :
    isAgentIdChar c = true -> Stripped s r -> Stripped (c :: s) (c :: r)
| Stripped_drop c s r :
    isAgentIdChar c = false -> Stripped s r -> Stripped (c :: s) r.

(** Nothing but white space (the empty string included). *)
Definition whitespaceOnly (s : jsstring) : Prop :=
  forallb isWhiteSpace s = true.

(** A path component that names something: not empty, not ".", not "..",
    and free of separators. *)
Definition plainSegment (s : jsstring) : bool :=
  negb (falsy s) && negb (isDot s) && negb (isDotDot s)
  && forallb (fun c => negb (isSlash c)) s.

Module Canonical.

(** Symbolic links of a file system: the location of each link and the
    absolute path it points to, both as lists of components. *)
Definition Links := list (list jsstring * list jsstring).

Fixpoint segs_eqb (a b : list jsstring) : bool :=
  match a, b with
  | [], [] => true
  | x :: a', y :: b' => str_eqb x y && segs_eqb a' b'
  | _, _ => false
  end.

Fixpoint lookupLink (l : Links) (p : list jsstring)
  : option (list jsstring) :=
  match l with
  | [] => None
  | (loc, target) :: rest =>
      if segs_eqb loc p then Some target else lookupLink rest p
  end.

(** Component-wise resolution in the manner of realpath(3): [done] is the
    link-free prefix reached so far, [todo] what is left to walk. *)
Fixpoint walk (fuel : nat) (l : Links) (done todo : list jsstring)
  : option (list jsstring) :=
  match fuel with
  | O => None
  | S f =>
      match todo with
      | [] => Some done
      | s :: rest =>
          if falsy s || isDot s then walk f l done rest
          else if isDotDot s then walk f l (removelast done) rest
          else match lookupLink l (done ++ [s]) with
               | Some target => walk f l [] (target ++ rest)
               | None => walk f l (done ++ [s]) rest
               end
      end
  end.

(** The absolute canonical form of [p], symbolic links followed. *)
Definition realpath (l : Links) (cwd p : jsstring) : option jsstring :=
  let full := if isAbsolute p then p else cwd ++ SLASH :: p in
  option_map (fun segs => SLASH :: joinSlash segs)
             (walk 4096 l [] (splitSlash full)).

(** The contract of the Path Guard read with canonical forms: the canonical
    path is prefixed by the canonical working directory or by the canonical
    storage subtree of the sanitized identifier. *)
Definition accepts (l : Links) (env : Env) (p : jsstring)
           (agentId : option jsstring) : bool :=
  match realpath l (cwd env) p, realpath l (cwd env) (cwd env) with
  | Some rp, Some rc =>
      startsWith rp rc
      || match agentId with
         | Some a =>
             match sanitizeAgentId a with
             | inr s =>
                 match realpath l (cwd env)
                                (join (MARKMAP_STORAGE_ROOT env) s) with
                 | Some rd => startsWith rp rd
                 | None => false
                 end
             | inl _ => false
             end
         | None => false
         end
  | _, _ => false
  end.

End Canonical.

(** The text an absolute resolution normalises. *)
Definition resolveInput (cwd p : jsstring) : jsstring :=
  if isAbsolute p then p ++ [SLASH] else cwd ++ SLASH :: p ++ [SLASH].

(** A file is durable when it exists and what the disk holds is what the
    operating system shows. *)
Definition durable (w : World) (p : jsstring) : Prop :=
  cache w p <> None /\ stable w p = cache w p.

(** [yields P m]: whenever [m] returns, its value satisfies [P]. *)
Definition yields {A} (P : A -> Prop) (m : M A) : Prop :=
  forall w a w', m w = (inr a, w') -> P a.

(** [grows m]: [m] only adds events to the log. *)
Definition grows {A} (m : M A) : Prop :=
  forall w, exists tr, trace (snd (m w)) = tr ++ trace w.

(** The invariants of an outline item: a text that is neither empty nor
    white space only, and a level from 1 to 6. *)
Definition itemOk (it : OutlineItem) : Prop :=
  ~ whitespaceOnly (text it) /\ (1 <= level it <= 6)%Z.



(** The node count a renderFile run reports, when it succeeds. *)
Definition renderedNodeCount
           (r : (exn + ToolResult RenderFile.Output) * World) : option N :=
  match fst r with
  | inr (ToolResponse _ o) => Some (RenderFile.o_node_count o)
  | _ => None
  end.

(** The node count a customize run reports, when it succeeds. *)
Definition customizedNodeCount
           (r : (exn + ToolResult Customize.Output) * World) : option N :=
  match fst r with
  | inr (ToolResponse _ o) => Some (Customize.o_node_count o)
  | _ => None
  end.

(** The error kind of a run, when it answers with an error. *)
Definition errorKindOfRun {O} (r : (exn + ToolResult O) * World)
  : option ErrorType :=
  match fst r with
  | inr res => errorTypeOf res
  | inl _ => None
  end.

(** A response that is not a FileSystemError. *)
Definition notFileSystemError {O} (r : ToolResult O) : Prop :=
  errorTypeOf r <> Some FileSystemError.

(** A call into the rendering delegate. *)
Definition isRenderCall (e : event) : bool :=
  match e with
  | EvRenderToSVG _ | EvApplyCustomization _ _ _ => true
  | _ => false
  end.

(** The error kinds the tools produce. *)
Definition toolErrorKind {O} (r : ToolResult O) : Prop :=
  match r with
  | ToolResponse _ _ => True
  | ToolError _ t =>
      t = ValidationError \/ t = FileSystemError \/ t = RenderError
  end.

(* ================================================================== *)
(** * A concrete environment *)
(* ================================================================== *)

Module Sample.

Definition HASH : char := 35%N.
Definition NEWLINE : char := 10%N.
Definition SPACE : char := 32%N.

Fixpoint splitLines (s : jsstring) : list jsstring :=
  match s with
  | [] => [[]]
  | c :: r =>
      if char_eqb c NEWLINE then [] :: splitLines r
      else match splitLines r with
           | l :: ls => (c :: l) :: ls
           | [] => [[c]]
           end
  end.

Fixpoint countHashes (line : jsstring) : N * jsstring :=
  match line with
  | c :: r =>
      if char_eqb c HASH
      then let '(n, rest) := countHashes r in ((n + 1)%N, rest)
      else (0%N, line)
  | [] => (0%N, [])
  end.

(** The level of a heading line, "#" to "######" followed by a space. *)
Definition headingLevel (line : jsstring) : option N :=
  match countHashes line with
  | (n, c :: _) =>
      if (1 <=? n)%N && (n <=? 6)%N && char_eqb c SPACE then Some n else None
  | _ => None
  end.

(** Modelled from the spec: the Structural Extractor of design §4.3, whose
    code (lib/markmap-handler.ts, utils/markdown-parser.ts) is not among the
    sources.  Every heading line is a node; [nodeCount] is their number and
    [maxDepth] the greatest level. *)
Definition extract (markdown : jsstring) : list N :=
  flat_map (fun l => match headingLevel l with Some n => [n] | None => [] end)
           (splitLines markdown).

Definition nodeCount (levels : list N) : N := N.of_nat (List.length levels).

Definition maxDepth (levels : list N) : N := fold_right N.max 0%N levels.

(** Modelled from the spec: the Outline-to-Markdown Compiler of design §4.4
    (utils/markdown-parser.ts is not among the sources): one heading line per
    item, with as many markers as its level. *)
Definition compileOutline (items : list OutlineItem) : jsstring :=
  flat_map (fun it => repeat HASH (Z.to_nat (level it)) ++ SPACE :: text it
                      ++ [NEWLINE])
           items.

Definition palette (theme : jsstring) : list jsstring :=
  if str_eqb theme (lit "dark")
  then [lit "#1F77B4"; lit "#FF7F0E"]
  else [lit "#5E6AD2"; lit "#26B5CE"].

Definition env : Env :=
  mkEnv (lit "/srv/app") (lit "/opt/mcp-servers/markmap_output")
        (inr tt)
        (fun markdown => inr (extract markdown, Some []))
        (fun markdown _ => inr (lit "<svg>" ++ markdown ++ lit "</svg>"))
        (fun markdown _ _ _ => inr (lit "<svg>" ++ markdown ++ lit "</svg>"))
        (fun theme => inr (palette theme))
        (fun root => inr (nodeCount root))
        (fun root => inr (maxDepth root))
        (fun items => inr (compileOutline items))
        (fun _ => lit "2025-02-13T12:40:00.000Z")
        (fun i => match i with
                  | O => lit "<html><title>"
                  | S O => lit "</title><body>"
                  | _ => lit "</body></html>"
                  end).

(** A world with one Markdown file, no faults scheduled and nothing logged. *)
Definition world (path content : jsstring) : World :=
  mkWorld (fun p => if str_eq_dec p path then Some content else None)
          (fun p => if str_eq_dec p path then Some content else None)
          (fun p => if str_eq_dec p path
                    then N.of_nat (List.length content) else 0%N)
          1739450400000%N [] [].

Definition withFaults (fs : list (option exn)) (w : World) : World :=
  mkWorld (cache w) (stable w) (sizes w) (now w) fs (trace w).

(** A document of [n] top-level headings. *)
Definition manyHeadings (n : nat) : jsstring :=
  flat_map (fun _ => lit "# h" ++ [NEWLINE]) (seq 0 n).

End Sample.

(* ================================================================== *)
(** * lib/storage.ts: the page that embeds the Markdown in a script *)
(* ================================================================== *)

Definition BACKSLASH : char := 92%N.
Definition BACKTICK : char := 96%N.
Definition DOLLAR : char := 36%N.
Definition LBRACE : char := 123%N.
Definition CR : char := 13%N.
Definition LF : char := 10%N.

(** [s.replace(/c/g, rep)] for a pattern of one character [c] and a
    replacement [rep] that holds no replacement pattern. *)
Fixpoint replaceChar (c : char) (rep : jsstring) (s : jsstring) : jsstring :=
  match s with
  | [] => []
  | x :: r =>
      if char_eqb x c then rep ++ replaceChar c rep r
      else x :: replaceChar c rep r
  end.

(** The escaping of generateHtml in the revision of lib/storage.ts that
    embeds the Markdown in a script (the three chained calls of replace):
    backslashes are doubled, then every backtick and every dollar sign gets a
    backslash before it. *)
Definition escapeMarkdown (markdownContent : jsstring) : jsstring :=
  replaceChar DOLLAR [BACKSLASH; DOLLAR]
    (replaceChar BACKTICK [BACKSLASH; BACKTICK]
       (replaceChar BACKSLASH [BACKSLASH; BACKSLASH] markdownContent)).

(** generateHtml of that revision: the title twice, and the escaped Markdown
    between the backticks of a template literal. *)
Definition generateHtml_script (env : Env) (markdownContent title : jsstring)
  : jsstring :=
  let escaped := escapeMarkdown markdownContent in
  htmlChunk env 0 ++ title ++ htmlChunk env 1 ++ title ++ htmlChunk env 2
  ++ escaped ++ htmlChunk env 3.

(* ================================================================== *)
(** * Further specification-side notions *)
(* ================================================================== *)

(** ** Template literals of JavaScript *)

(** The value of a template literal without substitutions whose text between
    the backticks is [s] (ECMA-262, template values): a backslash followed by
    a backslash, a backtick or a dollar sign stands for that character, a
    carriage return, with the line feed after it if there is one, for a line
    feed, any other character for itself.  [None] when [s] is not the body of
    such a literal: when it holds a bare backtick, the opening of a
    substitution, or another escape. *)
Fixpoint templateValue (s : jsstring) : option jsstring :=
  match s with
  | [] => Some []
  | c :: r =>
      if char_eqb c BACKSLASH then
        match r with
        | d :: r' =>
            if char_eqb d BACKSLASH || char_eqb d BACKTICK
               || char_eqb d DOLLAR
            then option_map (cons d) (templateValue r')
            else None
        | [] => None
        end
      else if char_eqb c BACKTICK then None
      else if char_eqb c DOLLAR then
        match r with
        | d :: _ =>
            if char_eqb d LBRACE then None
            else option_map (cons c) (templateValue r)
        | [] => option_map (cons c) (templateValue r)
        end
      else if char_eqb c CR then
        match r with
        | d :: r' =>
            if char_eqb d LF then option_map (cons LF) (templateValue r')
            else option_map (cons LF) (templateValue r)
        | [] => option_map (cons LF) (templateValue r)
        end
      else option_map (cons c) (templateValue r)
  end.

(** Line endings as a template literal reads them: CR LF and CR become LF. *)
Fixpoint normalizeNewlines (s : jsstring) : jsstring :=
  match s with
  | [] => []
  | c :: r =>
      if char_eqb c CR then
        match r with
        | d :: r' =>
            if char_eqb d LF then LF :: normalizeNewlines r'
            else LF :: normalizeNewlines r
        | [] => [LF]
        end
      else c :: normalizeNewlines r
  end.

(** ** Paths, numerals and responses *)

(** A string without a path separator. *)
Definition slashFree (s : jsstring) : bool :=
  forallb (fun c => negb (isSlash c)) s.

(** The number a string of decimal digits writes. *)
Definition decimalValue (s : jsstring) : N :=
  fold_left (fun a c => (10 * a + (c - 48))%N) s 0%N.

(** The named components of an absolute path, in order. *)
Definition components (p : jsstring) : list jsstring :=
  normalizeSegs false [] (splitSlash p).


(** What a successful customize response says about its input. *)
Definition customizeReflects (env : Env) (input : Customize.Input)
           (r : ToolResult Customize.Output) : Prop :=
  match r with
  | ToolError _ _ => True
  | ToolResponse _ o =>
      In (Customize.o_theme_applied o) Customize.validThemes
      /\ Customize.o_theme_applied o
         = (if Customize.truthy (Customize.theme input)
            then match Customize.theme input with
                 | Some t => t | None => [] end
            else lit "default")
      /\ Customize.s_theme (Customize.o_customization_summary o)
         = Customize.o_theme_applied o
      /\ match Customize.color_scheme input with
         | Some cs =>
             Customize.o_colors_used o = cs
             /\ forallb Customize.hexColorRegex_test cs = true
             /\ Customize.s_custom_colors (Customize.o_customization_summary o)
                = true
         | None =>
             getColorScheme env (Customize.o_theme_applied o)
             = inr (Customize.o_colors_used o)
             /\ Customize.s_custom_colors (Customize.o_customization_summary o)
                = false
         end
  end.

(** What a successful fromOutline response is made of. *)
Definition fromOutlineReflects (env : Env) (input : FromOutline.Input)
           (r : ToolResult FromOutline.Output) : Prop :=
  match r with
  | ToolError _ _ => True
  | ToolResponse _ o =>
      Forall itemOk (FromOutline.outline_items input)
      /\ FromOutline.outline_items input <> []
      /\ outlineToMarkdown env (FromOutline.outline_items input)
         = inr (FromOutline.o_markdown_generated o)
      /\ renderToSVG env (FromOutline.o_markdown_generated o)
                     (FromOutline.options input)
         = inr (FromOutline.o_svg_content o)
      /\ exists root features,
           parseMarkdown env (FromOutline.o_markdown_generated o)
           = inr (root, features)
           /\ countNodes env root = inr (FromOutline.o_node_count o)
           /\ calculateDepth env root = inr (FromOutline.o_depth o)
           /\ FromOutline.o_features_used o = featureKeys features
  end.

(* ================================================================== *)
(** * Strings: basic facts *)
(* ================================================================== *)

Ltac bool_to_prop :=
  repeat match goal with
         | H : _ && _ = true |- _ => apply andb_true_iff in H; destruct H
         | H : _ || _ = true |- _ => apply orb_true_iff in H; destruct H
         | H : _ || _ = false |- _ => apply orb_false_iff in H; destruct H
         | H : negb _ = true |- _ => apply negb_true_iff in H
         | H : negb _ = false |- _ => apply negb_false_iff in H
         | H : (_ <=? _)%N = true |- _ => apply N.leb_le in H
         | H : (_ =? _)%N = true |- _ => apply N.eqb_eq in H
         | H : char_eqb _ _ = true |- _ => apply N.eqb_eq in H
         end.

Lemma str_eqb_eq (a b : jsstring) : str_eqb a b = true <-> a = b.
Proof.
  revert b; induction a as [|x a IH]; intros [|y b]; simpl;
    try (split; [discriminate | discriminate]); try tauto.
  rewrite andb_true_iff, IH. unfold char_eqb. rewrite N.eqb_eq.
  split; [intros [-> ->]; reflexivity | intros [= -> ->]; auto].
Qed.

Lemma str_eqb_refl (a : jsstring) : str_eqb a a = true.
Proof. apply str_eqb_eq. reflexivity. Qed.

Lemma falsy_nil (s : jsstring) : falsy s = true <-> s = [].
Proof. destruct s; simpl; split; congruence. Qed.

Lemma length_zero_nil (s : jsstring) : (List.length s =? 0)%nat = true <-> s = [].
Proof. destruct s; simpl; split; congruence. Qed.

Lemma agentIdChar_range (c : char) :
  isAgentIdChar c = true -> (45 <= c <= 122)%N.
Proof.
  unfold isAgentIdChar, isLower, isUpper, isDigit, in_range. intros H.
  bool_to_prop; subst; lia.
Qed.

Lemma whiteSpace_range (c : char) :
  isWhiteSpace c = true -> (c <= 32 \/ 160 <= c)%N.
Proof.
  unfold isWhiteSpace, in_range. intros H. bool_to_prop; subst; lia.
Qed.

Lemma whiteSpace_not_agentIdChar (c : char) :
  isWhiteSpace c = true -> isAgentIdChar c = false.
Proof.
  intros Hw. destruct (isAgentIdChar c) eqn:Ha; [|reflexivity].
  apply agentIdChar_range in Ha. apply whiteSpace_range in Hw. lia.
Qed.

Lemma trimStart_nil (s : jsstring) :
  trimStart s = [] <-> forallb isWhiteSpace s = true.
Proof.
  induction s as [|c s IH]; simpl; [tauto|].
  destruct (isWhiteSpace c); simpl; [exact IH | split; discriminate].
Qed.

Lemma trimStart_head (s : jsstring) c r :
  trimStart s = c :: r -> isWhiteSpace c = false.
Proof.
  induction s as [|x s IH]; simpl; [discriminate|].
  destruct (isWhiteSpace x) eqn:E; [exact IH | intros [= <- _]; exact E].
Qed.

Lemma trimEnd_nil (s : jsstring) :
  trimEnd s = [] <-> forallb isWhiteSpace s = true.
Proof.
  induction s as [|c s IH]; simpl; [tauto|].
  destruct (trimEnd s) as [|x r].
  - destruct (isWhiteSpace c); simpl; [exact IH | split; discriminate].
  - split; [discriminate|]. rewrite andb_true_iff. intros [_ H].
    apply IH in H. discriminate.
Qed.

Lemma trim_nil (s : jsstring) : trim s = [] <-> whitespaceOnly s.
Proof.
  unfold trim, whitespaceOnly. rewrite trimEnd_nil. split.
  - intros H. destruct (trimStart s) as [|c r] eqn:E;
      [apply trimStart_nil; exact E|].
    apply trimStart_head in E. simpl in H. rewrite E in H. discriminate.
  - intros H. apply trimStart_nil in H. rewrite H. reflexivity.
Qed.

Lemma blank_whitespaceOnly (s : jsstring) : blank s = true <-> whitespaceOnly s.
Proof.
  unfold blank. rewrite orb_true_iff, falsy_nil, length_zero_nil, trim_nil.
  split; [intros [->|H]; [reflexivity | exact H] | auto].
Qed.

(* ================================================================== *)
(** * The identifier sanitizer *)
(* ================================================================== *)

Lemma deleteAll_Stripped (s : jsstring) :
  Stripped s (deleteAll notAgentIdChar s).
Proof.
  induction s as [|c s IH]; simpl; [constructor|].
  unfold notAgentIdChar at 1. destruct (isAgentIdChar c) eqn:E; simpl.
  - apply Stripped_keep; assumption.
  - apply Stripped_drop; assumption.
Qed.

Lemma Stripped_fun (s r : jsstring) :
  Stripped s r -> r = deleteAll notAgentIdChar s.
Proof.
  induction 1 as [|c s r Hc _ IH|c s r Hc _ IH]; simpl;
    try change (notAgentIdChar c) with (negb (isAgentIdChar c));
    try rewrite Hc; simpl; congruence.
Qed.

Lemma Stripped_allowed_id (s : jsstring) :
  forallb isAgentIdChar s = true -> Stripped s s.
Proof.
  induction s as [|c s IH]; simpl; [constructor|].
  intros H. apply andb_true_iff in H. destruct H.
  apply Stripped_keep; auto.
Qed.

Lemma Stripped_whitespace (s : jsstring) : whitespaceOnly s -> Stripped s [].
Proof.
  unfold whitespaceOnly. induction s as [|c s IH]; simpl; [constructor|].
  intros H. apply andb_true_iff in H. destruct H as [Hc Hs].
  apply Stripped_drop; [apply whiteSpace_not_agentIdChar, Hc | auto].
Qed.

(** The result of the sanitizer, in one equation. *)
Lemma sanitizeAgentId_eq (s : jsstring) :
  sanitizeAgentId s =
  match deleteAll notAgentIdChar s with
  | [] => if blank s
          then inl (Error (lit "agent_id cannot be empty"))
          else inl (Error (lit
                 "agent_id contains no valid characters (allowed: a-zA-Z0-9._-)"))
  | r => inr r
  end.
Proof.
  unfold sanitizeAgentId. fold (blank s).
  destruct (blank s) eqn:B.
  - apply blank_whitespaceOnly, Stripped_whitespace, Stripped_fun in B.
    rewrite <- B. reflexivity.
  - destruct (deleteAll notAgentIdChar s); reflexivity.
Qed.

Lemma sanitizeAgentId_inl_iff (s : jsstring) :
  (exists e, sanitizeAgentId s = inl e) <-> Stripped s [].
Proof.
  rewrite sanitizeAgentId_eq. split.
  - intros [e H]. pose proof (deleteAll_Stripped s) as D.
    destruct (deleteAll notAgentIdChar s); [exact D | discriminate].
  - intros H. apply Stripped_fun in H. rewrite <- H.
    destruct (blank s); eexists; reflexivity.
Qed.

Lemma sanitizeAgentId_inr (s r : jsstring) :
  sanitizeAgentId s = inr r -> r <> [] /\ Stripped s r.
Proof.
  rewrite sanitizeAgentId_eq. pose proof (deleteAll_Stripped s) as D.
  destruct (deleteAll notAgentIdChar s) eqn:E.
  - destruct (blank s); discriminate.
  - intros [= <-]. split; [discriminate | exact D].
Qed.

Lemma sanitizeAgentId_total (s : jsstring) :
  (exists e, sanitizeAgentId s = inl e)
  \/ (exists r, sanitizeAgentId s = inr r /\ r <> []).
Proof.
  destruct (sanitizeAgentId s) as [e|r] eqn:E.
  - left. exists e. reflexivity.
  - right. exists r. split; [reflexivity | apply (sanitizeAgentId_inr s), E].
Qed.

(** Every tool turns a rejected identifier into a ValidationError response,
    before it touches the world. *)
Lemma renderFileTool_bad_agent env save input w e :
  sanitizeAgentId (RenderFile.agent_id input) = inl e ->
  RenderFile.renderFileTool env save input w =
  (inr (ToolError (lit "Error: " ++ messageOr e (lit "Invalid agent_id"))
                  ValidationError), w).
Proof.
  intros H. unfold RenderFile.renderFileTool, tryCatch. rewrite H. reflexivity.
Qed.

Lemma fromOutlineTool_bad_agent env save input w e :
  sanitizeAgentId (FromOutline.agent_id input) = inl e ->
  FromOutline.fromOutlineTool env save input w =
  (inr (ToolError (lit "Error: " ++ messageOr e (lit "Invalid agent_id"))
                  ValidationError), w).
Proof.
  intros H. unfold FromOutline.fromOutlineTool, tryCatch. rewrite H.
  reflexivity.
Qed.

Lemma customizeTool_bad_agent env save input w e :
  sanitizeAgentId (Customize.agent_id input) = inl e ->
  Customize.customizeTool env save input w =
  (inr (ToolError (lit "Error: " ++ messageOr e (lit "Invalid agent_id"))
                  ValidationError), w).
Proof.
  intros H. unfold Customize.customizeTool, tryCatch. rewrite H. reflexivity.
Qed.

(** C2. Whenever deleting the characters outside letters, digits, ".", "_"
    and "-" from the input leaves something, sanitizeAgentId returns exactly
    that string: the disallowed characters deleted and the others kept in
    order ([Stripped]).  On an input made of allowed characters only it
    returns the input itself. *)
Theorem sanitizeAgentId_strips (s r : jsstring) :
  Stripped s r -> r <> [] ->
  sanitizeAgentId s = inr r
  /\ (forallb isAgentIdChar s = true -> sanitizeAgentId s = inr s).
Proof.
  intros HS Hne. pose proof (Stripped_fun HS) as ->.
  assert (E : sanitizeAgentId s = inr (deleteAll notAgentIdChar s)).
  { rewrite sanitizeAgentId_eq.
    destruct (deleteAll notAgentIdChar s); [congruence | reflexivity]. }
  split; [exact E|].
  intros Hall. apply Stripped_allowed_id, Stripped_fun in Hall.
  rewrite E. congruence.
Qed.

Lemma sanitizeAgentId_strips_witness :
  sanitizeAgentId (lit "../etc") = inr (lit "..etc")
  /\ sanitizeAgentId (lit "agent-001_v1.2") = inr (lit "agent-001_v1.2").
Proof.
  split.
  - apply (sanitizeAgentId_strips (s := lit "../etc") (r := lit "..etc")).
    + repeat first [ apply Stripped_nil
                   | apply Stripped_keep; [reflexivity|]
                   | apply Stripped_drop; [reflexivity|] ].
    + discriminate.
  - apply (sanitizeAgentId_strips (s := lit "agent-001_v1.2")
                                  (r := lit "agent-001_v1.2")).
    + apply Stripped_allowed_id. reflexivity.
    + discriminate.
    + reflexivity.
Defined.

(** C3. sanitizeAgentId throws exactly when the input is empty, consists of
    white space only, or loses every character to the stripping (as "@#$%"
    does); on every other input it returns a non-empty string.  The three
    tools report the exception as a ValidationError and leave the world as it
    was. *)
Theorem sanitizeAgentId_fails_exactly (s : jsstring) :
  ((exists e, sanitizeAgentId s = inl e)
   <-> s = [] \/ whitespaceOnly s \/ Stripped s [])
  /\ ((exists r, sanitizeAgentId s = inr r /\ r <> [])
      <-> ~ (s = [] \/ whitespaceOnly s \/ Stripped s []))
  /\ (exists e, sanitizeAgentId (lit "@#$%") = inl e)
  /\ (forall e, sanitizeAgentId s = inl e ->
      forall env save w,
        (forall i, RenderFile.agent_id i = s ->
           exists t, RenderFile.renderFileTool env save i w
                     = (inr (ToolError t ValidationError), w))
        /\ (forall i, FromOutline.agent_id i = s ->
           exists t, FromOutline.fromOutlineTool env save i w
                     = (inr (ToolError t ValidationError), w))
        /\ (forall i, Customize.agent_id i = s ->
           exists t, Customize.customizeTool env save i w
                     = (inr (ToolError t ValidationError), w))).
Proof.
  assert (K : (s = [] \/ whitespaceOnly s \/ Stripped s []) <-> Stripped s []).
  { split; [|auto]. intros [->|[H|H]];
      [constructor | apply Stripped_whitespace, H | exact H]. }
  split; [|split; [|split]].
  - rewrite K. apply sanitizeAgentId_inl_iff.
  - rewrite K, <- sanitizeAgentId_inl_iff. split.
    + intros (r & Hr & _) (e & He). congruence.
    + intros Hn. destruct (sanitizeAgentId_total s) as [H|H]; tauto.
  - eexists. reflexivity.
  - intros e He env save w. repeat split; intros i <-; eexists.
    + apply renderFileTool_bad_agent, He.
    + apply fromOutlineTool_bad_agent, He.
    + apply customizeTool_bad_agent, He.
Qed.

(* ================================================================== *)
(** * Paths: splitting, joining and normalising *)
(* ================================================================== *)

Lemma startsWith_app (a b : jsstring) : startsWith (a ++ b) a = true.
Proof.
  induction a as [|x a IH]; simpl; [destruct b; reflexivity|].
  unfold char_eqb. rewrite N.eqb_refl. exact IH.
Qed.

Lemma startsWith_iff (s p : jsstring) :
  startsWith s p = true <-> exists r, s = p ++ r.
Proof.
  revert s; induction p as [|y p IH]; intros s; simpl.
  - split; [exists s; reflexivity | destruct s; reflexivity].
  - destruct s as [|x s].
    + split; [discriminate | intros [r H]; discriminate].
    + simpl. rewrite andb_true_iff, IH. unfold char_eqb. rewrite N.eqb_eq.
      split.
      * intros [-> [r ->]]. exists r. reflexivity.
      * intros [r [= -> ->]]. split; [reflexivity | exists r; reflexivity].
Qed.

Lemma splitSlash_nonempty (s : jsstring) : splitSlash s <> [].
Proof.
  destruct s as [|c s]; simpl; [discriminate|].
  destruct (isSlash c); [discriminate|].
  destruct (splitSlash s); discriminate.
Qed.

(** Splitting distributes over a separator. *)
Lemma splitSlash_app (a b : jsstring) :
  splitSlash (a ++ SLASH :: b) = splitSlash a ++ splitSlash b.
Proof.
  induction a as [|c a IH]; simpl; [reflexivity|].
  destruct (isSlash c); [rewrite IH; reflexivity|].
  rewrite IH. destruct (splitSlash a) eqn:E; [|reflexivity].
  exfalso. exact (splitSlash_nonempty a E).
Qed.

Lemma splitSlash_noslash (s : jsstring) :
  forallb (fun c => negb (isSlash c)) s = true -> splitSlash s = [s].
Proof.
  induction s as [|c s IH]; simpl; [reflexivity|].
  intros H. apply andb_true_iff in H. destruct H as [Hc Hs].
  apply negb_true_iff in Hc. rewrite Hc, (IH Hs). reflexivity.
Qed.

Lemma plainSegment_noslash (s : jsstring) :
  plainSegment s = true -> forallb (fun c => negb (isSlash c)) s = true.
Proof. unfold plainSegment. intros H. bool_to_prop. assumption. Qed.

Lemma splitSlash_joinSlash (segs : list jsstring) :
  Forall (fun s => plainSegment s = true) segs -> segs <> [] ->
  splitSlash (joinSlash segs) = segs.
Proof.
  induction 1 as [|s segs Hs _ IH]; [congruence|]. intros _.
  destruct segs as [|s' segs].
  - simpl. apply splitSlash_noslash, plainSegment_noslash, Hs.
  - change (joinSlash (s :: s' :: segs))
      with (s ++ SLASH :: joinSlash (s' :: segs)).
    rewrite splitSlash_app, IH by discriminate.
    rewrite (splitSlash_noslash _ (plainSegment_noslash _ Hs)). reflexivity.
Qed.

(** Normalisation is a left-to-right pass: it can be resumed. *)
Lemma normalizeSegs_app (above : bool) (xs ys acc : list jsstring) :
  normalizeSegs above acc (xs ++ ys)
  = normalizeSegs above (rev (normalizeSegs above acc xs)) ys.
Proof.
  revert acc; induction xs as [|s xs IH]; intros acc; simpl.
  - rewrite rev_involutive. reflexivity.
  - destruct (falsy s || isDot s); [apply IH|].
    destruct (isDotDot s).
    + destruct acc as [|top acc']; [apply IH|].
      destruct (isDotDot top); apply IH.
    + apply IH.
Qed.

Lemma normalizeSegs_plain (above : bool) (segs acc : list jsstring) :
  Forall (fun s => plainSegment s = true) segs ->
  normalizeSegs above acc segs = rev acc ++ segs.
Proof.
  intros H; revert acc; induction H as [|s segs Hs _ IH]; intros acc; simpl.
  - rewrite app_nil_r. reflexivity.
  - unfold plainSegment in Hs. bool_to_prop.
    replace (falsy s) with false by congruence.
    replace (isDot s) with false by congruence.
    replace (isDotDot s) with false by congruence. simpl.
    rewrite IH. simpl. rewrite <- app_assoc. reflexivity.
Qed.

Lemma joinSlash_app_prefix (xs ys : list jsstring) :
  startsWith (joinSlash (xs ++ ys)) (joinSlash xs) = true.
Proof.
  induction xs as [|x xs IH]; [destruct (joinSlash ([] ++ ys)); reflexivity|].
  destruct xs as [|x' xs].
  - simpl. destruct ys; [rewrite <- (app_nil_r x) at 1|]; apply startsWith_app.
  - change (startsWith (x ++ SLASH :: joinSlash ((x' :: xs) ++ ys))
                       (x ++ SLASH :: joinSlash (x' :: xs)) = true).
    apply startsWith_iff. apply startsWith_iff in IH. destruct IH as [r Hr].
    exists r. rewrite Hr. rewrite <- app_assoc. reflexivity.
Qed.

Lemma normalize_nonempty (p : jsstring) : normalize p <> [].
Proof.
  unfold normalize. destruct (falsy p); [discriminate|].
  destruct (normalizeString p (negb (isAbsolute p))) as [|c n] eqn:E; simpl.
  - destruct (isAbsolute p); [discriminate|].
    destruct (endsWithSlash p); discriminate.
  - destruct (isAbsolute p); [discriminate|].
    destruct (endsWithSlash p); discriminate.
Qed.

Lemma join_nonempty (a b : jsstring) : join a b <> [].
Proof.
  unfold join. destruct (falsy a), (falsy b);
    [discriminate | apply normalize_nonempty ..].
Qed.

Lemma resolve_absolute (cwd p : jsstring) :
  isAbsolute cwd = true -> p <> [] ->
  resolve cwd p
  = SLASH :: joinSlash (normalizeSegs false [] (splitSlash (resolveInput cwd p))).
Proof.
  intros Hc Hp. unfold resolve, resolveInput, normalizeString.
  destruct p as [|c p]; [congruence|]. simpl falsy. cbv iota.
  destruct (isAbsolute (c :: p)); [reflexivity|].
  destruct cwd as [|d cwd]; [discriminate|]. simpl falsy. cbv iota.
  rewrite Hc. reflexivity.
Qed.

(** Below a directory one stays below it: appending named components to a
    path extends its resolution. *)
Lemma resolve_below (cwd d : jsstring) (segs : list jsstring) :
  isAbsolute cwd = true -> d <> [] ->
  Forall (fun s => plainSegment s = true) segs -> segs <> [] ->
  startsWith (resolve cwd (d ++ SLASH :: joinSlash segs)) (resolve cwd d) = true.
Proof.
  intros Hc Hd Hs Hne.
  rewrite (@resolve_absolute cwd d) by assumption.
  assert (Hp : d ++ SLASH :: joinSlash segs <> [])
    by (destruct d; [congruence | discriminate]).
  rewrite (@resolve_absolute cwd _ Hc Hp).
  assert (Hin : resolveInput cwd (d ++ SLASH :: joinSlash segs)
                = resolveInput cwd d ++ joinSlash segs ++ [SLASH]).
  { unfold resolveInput. destruct d as [|c d]; [congruence|]. simpl isAbsolute.
    destruct (isSlash c); simpl; repeat (rewrite <- app_assoc; simpl);
      reflexivity. }
  assert (Hd' : exists q, resolveInput cwd d = q ++ [SLASH]).
  { unfold resolveInput. destruct (isAbsolute d);
      [exists d | exists (cwd ++ SLASH :: d)]; try reflexivity.
    rewrite <- app_assoc. reflexivity. }
  destruct Hd' as [q Hq]. rewrite Hin, Hq.
  rewrite <- !app_assoc. simpl app.
  rewrite !splitSlash_app.
  rewrite (splitSlash_joinSlash Hs Hne). simpl (splitSlash []).
  rewrite !normalizeSegs_app. simpl (normalizeSegs false _ [[]]).
  rewrite !rev_involutive.
  rewrite (normalizeSegs_plain false _ Hs), rev_involutive.
  cbn [startsWith]. replace (char_eqb SLASH SLASH) with true by reflexivity.
  apply joinSlash_app_prefix.
Qed.

(* ================================================================== *)
(** * The path guard *)
(* ================================================================== *)

Lemma Stripped_nonempty_source (a s : jsstring) :
  Stripped a s -> s <> [] -> falsy a = false.
Proof. intros H Hs. destruct H; [congruence | reflexivity ..]. Qed.

Lemma length_pos (s : jsstring) : s <> [] -> (0 <? List.length s)%nat = true.
Proof. destruct s; [congruence | reflexivity]. Qed.



(** C1, as the code has it.  validateFilePath accepts a path exactly when its
    resolved form (path.resolve: "." and ".." folded, symbolic links not
    followed) starts with the resolved working directory or, the identifier
    being present with a non-empty stripped form, with the resolved storage
    directory of the stripped identifier.  So "../etc/passwd" is rejected
    where it resolves outside both roots, and every path of named components
    below the caller's agent directory is accepted. *)
Theorem validateFilePath_lexical_prefix
        (env : Env) (p : jsstring) (aid : option jsstring) :
  (RenderFile.validateFilePath env p aid = true <->
     startsWith (resolve (cwd env) p) (resolve (cwd env) (cwd env)) = true
     \/ exists a s,
          aid = Some a /\ Stripped a s /\ s <> []
          /\ startsWith (resolve (cwd env) p)
                        (resolve (cwd env)
                                 (join (MARKMAP_STORAGE_ROOT env) s)) = true)
  /\ RenderFile.validateFilePath Sample.env (lit "../etc/passwd")
       (Some (lit "agent-001")) = false
  /\ (forall a s segs,
        isAbsolute (cwd env) = true ->
        Stripped a s -> s <> [] ->
        Forall (fun x => plainSegment x = true) segs -> segs <> [] ->
        RenderFile.validateFilePath env
          (join (MARKMAP_STORAGE_ROOT env) s ++ SLASH :: joinSlash segs)
          (Some a) = true).
Proof.
  split; [|split].
  - unfold RenderFile.validateFilePath.
    destruct (startsWith (resolve (cwd env) p) (resolve (cwd env) (cwd env)));
      [split; auto|].
    split.
    + intros H. right. destruct aid as [a|]; [|discriminate].
      destruct (falsy a) eqn:Fa; [discriminate|]. simpl in H.
      pose proof (deleteAll_Stripped a) as D.
      destruct (deleteAll notAgentIdChar a) as [|c s] eqn:E; [discriminate|].
      simpl in H. exists a, (c :: s). repeat split; try assumption; try discriminate.
      destruct (startsWith _ _) in H |- *; [reflexivity | discriminate].
    + intros [H|(a & s & -> & HS & Hne & Hst)]; [discriminate|].
      rewrite (Stripped_nonempty_source HS Hne). simpl.
      rewrite <- (Stripped_fun HS), (length_pos Hne), Hst. reflexivity.
  - reflexivity.
  - intros a s segs Hc HS Hne Hsegs Hsne.
    unfold RenderFile.validateFilePath.
    destruct (startsWith _ (resolve (cwd env) (cwd env))); [reflexivity|].
    rewrite (Stripped_nonempty_source HS Hne). simpl.
    rewrite <- (Stripped_fun HS), (length_pos Hne).
    rewrite resolve_below; auto using join_nonempty.
Qed.

(** The prefix test is a test on strings: a sibling directory whose name
    extends that of the working directory passes it. *)
Example validateFilePath_string_prefix :
  RenderFile.validateFilePath Sample.env (lit "/srv/app-backup/notes.md") None
  = true.
Proof. reflexivity. Qed.

(** C1, as the design states it, fails: the guard never consults the file
    system.  With /srv/app/docs a symbolic link to /etc, the path
    "docs/passwd.md" is accepted although its canonical form, /etc/passwd.md,
    lies under neither root. *)
Lemma validateFilePath_accepts_symlink_escape :
  let links := [([lit "srv"; lit "app"; lit "docs"], [lit "etc"])] in
  RenderFile.validateFilePath Sample.env (lit "docs/passwd.md")
    (Some (lit "agent-001")) = true
  /\ Canonical.realpath links (cwd Sample.env) (lit "docs/passwd.md")
     = Some (lit "/etc/passwd.md")
  /\ Canonical.accepts links Sample.env (lit "docs/passwd.md")
       (Some (lit "agent-001")) = false.
Proof. vm_compute. repeat split. Qed.

(* ================================================================== *)
(** * Reasoning about operations *)
(* ================================================================== *)

Section MonadFacts.

Context {A B : Type}.

Lemma bind_ok (m : M A) (k : A -> M B) w a w' :
  m w = (inr a, w') -> bind m k w = k a w'.
Proof. unfold bind. intros ->. reflexivity. Qed.

Lemma bind_err (m : M A) (k : A -> M B) w e w' :
  m w = (inl e, w') -> bind m k w = (inl e, w').
Proof. unfold bind. intros ->. reflexivity. Qed.

Lemma bind_inr_inv (m : M A) (k : A -> M B) w b w'' :
  bind m k w = (inr b, w'') ->
  exists a w', m w = (inr a, w') /\ k a w' = (inr b, w'').
Proof.
  unfold bind. destruct (m w) as [[e|a] w']; [discriminate|].
  intros H. exists a, w'. split; [reflexivity | exact H].
Qed.

Lemma tryFinally_inr_inv (m : M A) (f : M unit) w a w'' :
  tryFinally m f w = (inr a, w'') ->
  exists w', m w = (inr a, w') /\ f w' = (inr tt, w'').
Proof.
  unfold tryFinally. destruct (m w) as [r w'].
  destruct (f w') as [[e|[]] w1] eqn:F; [discriminate|].
  intros [= -> ->]. exists w'. split; [reflexivity | exact F].
Qed.

Lemma yields_ret (P : A -> Prop) (a : A) : P a -> yields P (ret a).
Proof. intros H w a' w' [= <- _]. exact H. Qed.

Lemma yields_throw (P : A -> Prop) e : yields P (throw e).
Proof. intros w a w' [=]. Qed.

Lemma yields_bind_strong (Q : A -> Prop) (P : B -> Prop)
      (m : M A) (k : A -> M B) :
  yields Q m -> (forall a, Q a -> yields P (k a)) -> yields P (bind m k).
Proof.
  intros Hm Hk w b w'' H. apply bind_inr_inv in H.
  destruct H as (a & w' & Hmw & Hkw). exact (Hk a (Hm _ _ _ Hmw) _ _ _ Hkw).
Qed.

Lemma yields_bind (P : B -> Prop) (m : M A) (k : A -> M B) :
  (forall a, yields P (k a)) -> yields P (bind m k).
Proof.
  intros Hk. apply (@yields_bind_strong (fun _ => True)); [|auto].
  intros w a w' _. exact I.
Qed.

Lemma yields_tryCatch (P : A -> Prop) (m : M A) (h : exn -> M A) :
  yields P m -> (forall e, yields P (h e)) -> yields P (tryCatch m h).
Proof.
  intros Hm Hh w a w''. unfold tryCatch.
  destruct (m w) as [[e|a'] w'] eqn:E.
  - apply Hh.
  - intros [= <- <-]. exact (Hm _ _ _ E).
Qed.

Lemma grows_ret (a : A) : grows (ret a).
Proof. intros w. exists []. reflexivity. Qed.

Lemma grows_throw e : grows (@throw A e).
Proof. intros w. exists []. reflexivity. Qed.

Lemma grows_liftE (r : exn + A) : grows (liftE r).
Proof. intros w. exists []. reflexivity. Qed.

Lemma grows_bind (m : M A) (k : A -> M B) :
  grows m -> (forall a, grows (k a)) -> grows (bind m k).
Proof.
  intros Hm Hk w. unfold bind. destruct (Hm w) as [tr Htr].
  destruct (m w) as [[e|a] w']; simpl in *.
  - exists tr. exact Htr.
  - destruct (Hk a w') as [tr' Htr']. exists (tr' ++ tr).
    rewrite Htr', Htr, app_assoc. reflexivity.
Qed.

Lemma grows_tryCatch (m : M A) (h : exn -> M A) :
  grows m -> (forall e, grows (h e)) -> grows (tryCatch m h).
Proof.
  intros Hm Hh w. unfold tryCatch. destruct (Hm w) as [tr Htr].
  destruct (m w) as [[e|a] w']; simpl in *.
  - destruct (Hh e w') as [tr' Htr']. exists (tr' ++ tr).
    rewrite Htr', Htr, app_assoc. reflexivity.
  - exists tr. exact Htr.
Qed.

Lemma grows_tryFinally (m : M A) (f : M unit) :
  grows m -> grows f -> grows (tryFinally m f).
Proof.
  intros Hm Hf w. unfold tryFinally. destruct (Hm w) as [tr Htr].
  destruct (m w) as [r w']; simpl in *.
  destruct (Hf w') as [tr' Htr'].
  destruct (f w') as [[e|u] w'']; simpl in *;
    exists (tr' ++ tr); rewrite Htr', Htr, app_assoc; reflexivity.
Qed.

Lemma grows_settle (m : M A) : grows m -> grows (settle m).
Proof.
  intros Hm w. unfold settle. destruct (Hm w) as [tr Htr].
  destruct (m w) as [r w']. exists tr. exact Htr.
Qed.

Lemma grows_call ev (r : exn + A) : grows (call ev r).
Proof. intros w. exists [ev]. reflexivity. Qed.

End MonadFacts.

Lemma grows_log ev : grows (log ev).
Proof. intros w. exists [ev]. reflexivity. Qed.

Lemma grows_fscall ev : grows (fscall ev).
Proof.
  intros w. exists [ev]. unfold fscall.
  destruct (faults w) as [|[e|] l]; reflexivity.
Qed.

Lemma grows_setCache p c : grows (setCache p c).
Proof. intros w. exists []. reflexivity. Qed.

Lemma grows_flush p : grows (flush p).
Proof. intros w. exists []. reflexivity. Qed.

Lemma grows_dateNow : grows dateNow.
Proof. intros w. exists []. reflexivity. Qed.

Lemma fscall_inr_inv ev w u w' :
  fscall ev w = (inr u, w') ->
  w' = mkWorld (cache w) (stable w) (sizes w) (now w) (tl (faults w))
               (ev :: trace w).
Proof.
  unfold fscall. destruct (faults w) as [|[e|] l]; intros [= _ <-]; reflexivity.
Qed.

Lemma fscall_no_fault ev w :
  faults w = [] ->
  fscall ev w = (inr tt, mkWorld (cache w) (stable w) (sizes w) (now w) []
                                 (ev :: trace w)).
Proof. unfold fscall. intros ->. reflexivity. Qed.

Ltac grows_step :=
  first
    [ apply grows_ret | apply grows_throw | apply grows_liftE
    | apply grows_log | apply grows_fscall | apply grows_call
    | apply grows_setCache | apply grows_flush | apply grows_dateNow
    | apply grows_settle | apply grows_tryFinally
    | apply grows_bind; [|intros ?]
    | apply grows_tryCatch; [|intros ?]
    | match goal with
      | H : forall a b c d, grows (?save a b c d) |- grows (?save _ _ _ _) =>
          apply H
      | |- grows (match ?x with _ => _ end) => destruct x
      end ].

Ltac grows_tac := repeat grows_step.

Lemma grows_promiseAll (ps : list (M unit)) :
  Forall grows ps -> grows (promiseAll ps).
Proof.
  induction 1 as [|p ps Hp _ IH]; simpl; [apply grows_ret|].
  apply grows_bind; [apply grows_settle, Hp | intros r].
  apply grows_bind; [apply grows_settle, IH | intros rs].
  destruct r, rs; grows_tac.
Qed.

Lemma grows_writeFileSync env p c : grows (writeFileSync env p c).
Proof. unfold writeFileSync, openSync, writeSync, fsyncSync, closeSync. grows_tac. Qed.

Lemma grows_writeFile env p c : grows (writeFile env p c).
Proof. unfold writeFile. grows_tac. Qed.

Lemma grows_ensureAgentDir env a : grows (ensureAgentDir env a).
Proof. unfold ensureAgentDir, mkdirRecursive. grows_tac. Qed.

Lemma grows_saveOutputs env a t s m : grows (saveOutputs env a t s m).
Proof.
  unfold saveOutputs.
  repeat first [ apply grows_ensureAgentDir | apply grows_writeFileSync
               | grows_step ].
Qed.

Lemma grows_saveOutputs_writeFile env a t s m :
  grows (saveOutputs_writeFile env a t s m).
Proof.
  unfold saveOutputs_writeFile.
  repeat first [ apply grows_ensureAgentDir
               | apply grows_promiseAll;
                 repeat (constructor; try apply grows_writeFile)
               | grows_step ].
Qed.

(* ================================================================== *)
(** * customize: validation comes before rendering *)
(* ================================================================== *)

Lemma firstBadColor_finds (cs : list jsstring) (c : jsstring) (i : N) :
  In c cs -> Customize.hexColorRegex_test c = false ->
  exists j c', Customize.firstBadColor i cs = Some (j, c').
Proof.
  revert i; induction cs as [|x cs IH]; intros i Hin Hc; [destruct Hin|].
  simpl. destruct (Customize.hexColorRegex_test x) eqn:E; simpl.
  - destruct Hin as [->|Hin]; [congruence|]. apply IH; assumption.
  - exists i, x. reflexivity.
Qed.

Lemma firstBadColor_none (cs : list jsstring) (i : N) :
  Customize.firstBadColor i cs = None
  <-> forallb Customize.hexColorRegex_test cs = true.
Proof.
  revert i; induction cs as [|x cs IH]; intros i; simpl; [tauto|].
  destruct (Customize.hexColorRegex_test x); simpl;
    [apply IH | split; discriminate].
Qed.

Lemma includes_In (l : list jsstring) (t : jsstring) :
  Customize.includes l t = true <-> In t l.
Proof.
  unfold Customize.includes. rewrite existsb_exists. split.
  - intros (x & Hx & E). apply str_eqb_eq in E. subst. exact Hx.
  - intros H. exists t. split; [exact H | apply str_eqb_eq; reflexivity].
Qed.

(** The pattern is strict: a "#" and six hexadecimal digits, nothing more. *)
Lemma hexColorRegex_test_spec (s : jsstring) :
  Customize.hexColorRegex_test s = true <->
  exists ds, s = 35%N :: ds /\ List.length ds = 6%nat
             /\ forallb Customize.isHexDigit ds = true.
Proof.
  unfold Customize.hexColorRegex_test. split.
  - destruct s as [|h [|a [|b [|c [|d [|e [|f [|g s]]]]]]]]; try discriminate.
    intros H. apply andb_true_iff in H. destruct H as [Hh Hd].
    apply N.eqb_eq in Hh. subst h. eexists. repeat split. exact Hd.
  - intros (ds & -> & Hl & Hd).
    destruct ds as [|a [|b [|c [|d [|e [|f [|g s]]]]]]]; try discriminate.
    exact Hd.
Qed.

(** C6, as the code has it.  A theme that is a non-empty string outside
    default, dark, colorful and minimal, or a colour scheme with an entry that
    is not "#" and six hexadecimal digits ("red" and "#ZZZZZZ" are not), makes
    customize answer with a ValidationError and leave the world as it found
    it: the handler has not been created and nothing has been rendered. *)
Theorem customizeTool_rejects_before_render
        (env : Env) (save : Saver) (input : Customize.Input) (w : World) :
  (exists t, Customize.theme input = Some t /\ t <> []
             /\ ~ In t Customize.validThemes)
  \/ (exists cs c, Customize.color_scheme input = Some cs /\ In c cs
                   /\ Customize.hexColorRegex_test c = false) ->
  (exists text,
     Customize.customizeTool env save input w
     = (inr (ToolError text ValidationError), w))
  /\ Customize.hexColorRegex_test (lit "red") = false
  /\ Customize.hexColorRegex_test (lit "#ZZZZZZ") = false.
Proof.
  intros H. split; [|split; reflexivity].
  unfold Customize.customizeTool, tryCatch.
  destruct (sanitizeAgentId (Customize.agent_id input)); [eexists; reflexivity|].
  destruct (blank (Customize.markdown_content input)); [eexists; reflexivity|].
  destruct (Customize.truthy (Customize.theme input)
            && negb (Customize.includes Customize.validThemes
                       match Customize.theme input with
                       | Some t => t | None => [] end)) eqn:T;
    [eexists; reflexivity|].
  destruct H as [(t & Ht & Hne & Hin)|(cs & c & Hcs & Hin & Hc)].
  - rewrite Ht in T. unfold Customize.truthy in T.
    destruct (Customize.includes Customize.validThemes t) eqn:I;
      [apply includes_In in I; contradiction|].
    destruct t; [congruence | discriminate].
  - rewrite Hcs.
    destruct (@firstBadColor_finds cs c 0%N Hin Hc) as (k & c' & ->).
    eexists; reflexivity.
Qed.

Lemma customizeTool_rejects_before_render_witness :
  (exists text,
     Customize.customizeTool Sample.env (saveOutputs Sample.env)
       (Customize.mkInput (lit "agent-001") (lit "# A") (Some (lit "neon"))
                          None None)
       (Sample.world (lit "/srv/app/a.md") (lit "# A"))
     = (inr (ToolError text ValidationError),
        Sample.world (lit "/srv/app/a.md") (lit "# A")))
  /\ (exists text,
     Customize.customizeTool Sample.env (saveOutputs Sample.env)
       (Customize.mkInput (lit "agent-001") (lit "# A") (Some (lit "dark"))
                          (Some [lit "#FF6B6B"; lit "red"]) None)
       (Sample.world (lit "/srv/app/a.md") (lit "# A"))
     = (inr (ToolError text ValidationError),
        Sample.world (lit "/srv/app/a.md") (lit "# A"))).
Proof.
  split.
  - apply customizeTool_rejects_before_render. left.
    exists (lit "neon"). split; [reflexivity|]. split; [discriminate|].
    intros [H|[H|[H|[H|[]]]]]; discriminate H.
  - apply customizeTool_rejects_before_render. right.
    exists [lit "#FF6B6B"; lit "red"], (lit "red").
    split; [reflexivity|]. split; [right; left; reflexivity | reflexivity].
Defined.

(** C6, as the design states it, fails for the empty string: it is a supplied
    theme outside the four names, yet customize treats it as no theme, renders
    with "default" and succeeds. *)
Lemma customizeTool_accepts_empty_theme :
  let input := Customize.mkInput (lit "agent-001") (lit "# A") (Some [])
                                 None None in
  let r := Customize.customizeTool Sample.env (saveOutputs Sample.env) input
             (Sample.world (lit "/srv/app/a.md") (lit "# A")) in
  ~ In [] Customize.validThemes
  /\ match fst r with
     | inr res => isSuccess res
     | inl _ => false
     end = true
  /\ existsb isRenderCall (trace (snd r)) = true
  /\ In (EvApplyCustomization (lit "# A") (lit "default") None) (trace (snd r)).
Proof.
  split; [intros [H|[H|[H|[H|[]]]]]; discriminate H|].
  vm_compute. repeat split. repeat first [left; reflexivity | right].
Qed.

(* ================================================================== *)
(** * fromOutline: item validation comes before compilation *)
(* ================================================================== *)

Lemma itemOk_tests (it : OutlineItem) :
  itemOk it
  <-> FromOutline.badText it = false /\ FromOutline.badLevel it = false.
Proof.
  unfold itemOk, FromOutline.badText, FromOutline.badLevel.
  rewrite <- blank_whitespaceOnly.
  destruct (blank (text it)).
  - split; [intros [H _]; exfalso; apply H; reflexivity | intros [H _]; discriminate].
  - rewrite !orb_false_iff, Z.eqb_neq, !Z.ltb_ge. split.
    + intros [_ H]. repeat split; lia.
    + intros [_ [[_ H1] H2]]. split; [discriminate | lia].
Qed.

Lemma validateItems_Forall (items : list OutlineItem) (i : N) :
  Forall itemOk items -> FromOutline.validateItems i items = None.
Proof.
  intros H; revert i; induction H as [|it items Hit _ IH]; intros i; simpl;
    [reflexivity|].
  apply itemOk_tests in Hit. destruct Hit as [-> ->]. apply IH.
Qed.

Lemma validateItems_Exists (items : list OutlineItem) (i : N) :
  Exists (fun it => ~ itemOk it) items ->
  exists t, FromOutline.validateItems i items
            = Some (ToolError t ValidationError).
Proof.
  intros H; revert i; induction H as [it items Hit|it items _ IH]; intros i;
    simpl.
  - destruct (FromOutline.badText it) eqn:T; [eexists; reflexivity|].
    destruct (FromOutline.badLevel it) eqn:L; [eexists; reflexivity|].
    exfalso. apply Hit, itemOk_tests. split; assumption.
  - destruct (FromOutline.badText it); [eexists; reflexivity|].
    destruct (FromOutline.badLevel it); [eexists; reflexivity|].
    apply IH.
Qed.

Lemma validateItems_kind (items : list OutlineItem) (i : N) r :
  FromOutline.validateItems i items = Some r ->
  exists t, r = ToolError t ValidationError.
Proof.
  revert i; induction items as [|it items IH]; intros i; simpl; [discriminate|].
  destruct (FromOutline.badText it); [intros [= <-]; eexists; reflexivity|].
  destruct (FromOutline.badLevel it); [intros [= <-]; eexists; reflexivity|].
  apply IH.
Qed.

Ltac yields_step :=
  first
    [ apply yields_ret | apply yields_throw
    | apply yields_bind; intros ?
    | match goal with
      | |- yields _ (match ?x with _ => _ end) => destruct x
      end ].

(** An operation that starts by calling out, under a catch-all handler: the
    call is the first event of the log, and the response is the handler's or
    the body's. *)
Lemma first_call_logged {A O} (P : ToolResult O -> Prop) ev (r : exn + A)
      (K : A -> M (ToolResult O)) (H : exn -> ToolResult O) (w : World) :
  (forall a, grows (K a)) -> (forall a, yields P (K a)) ->
  (forall e, P (H e)) ->
  exists res w',
    tryCatch (bind (call ev r) K) (fun e => ret (H e)) w = (inr res, w')
    /\ P res /\ exists tr, trace w' = tr ++ ev :: trace w.
Proof.
  intros HG HY HH. unfold tryCatch, bind at 1, call, bind at 1, log, liftE.
  destruct r as [e|a].
  - eexists _, _. split; [reflexivity|]. split; [apply HH|].
    exists []. reflexivity.
  - match goal with |- context [K a ?w1] => set (w1' := w1) end.
    destruct (HG a w1') as [tr Htr].
    destruct (K a w1') as [[e|res] w'] eqn:E; simpl in Htr.
    + eexists _, _. split; [reflexivity|]. split; [apply HH|].
      exists tr. exact Htr.
    + eexists _, _. split; [reflexivity|]. split; [exact (HY _ _ _ _ E)|].
      exists tr. exact Htr.
Qed.

(** C7, as the code has it.  If some item has an empty or white-space-only
    text or a level outside 1..6, fromOutline answers with a ValidationError
    and leaves the world as it found it, so outlineToMarkdown has not run.
    If the identifier is accepted, the sequence is not empty and every item
    satisfies both invariants, validation passes: outlineToMarkdown is called
    on the items before anything else happens, and the response is not a
    ValidationError. *)
Theorem fromOutlineTool_validates_items
        (env : Env) (save : Saver) (input : FromOutline.Input) (w : World) :
  (Exists (fun it => ~ itemOk it) (FromOutline.outline_items input) ->
   exists text,
     FromOutline.fromOutlineTool env save input w
     = (inr (ToolError text ValidationError), w))
  /\ ((forall a b c d, grows (save a b c d)) ->
      (exists s, sanitizeAgentId (FromOutline.agent_id input) = inr s) ->
      FromOutline.outline_items input <> [] ->
      Forall itemOk (FromOutline.outline_items input) ->
      exists res w',
        FromOutline.fromOutlineTool env save input w = (inr res, w')
        /\ errorTypeOf res <> Some ValidationError
        /\ exists tr,
             trace w'
             = tr ++ EvOutlineToMarkdown (FromOutline.outline_items input)
                  :: trace w).
Proof.
  split.
  - intros H. unfold FromOutline.fromOutlineTool, tryCatch.
    destruct (sanitizeAgentId (FromOutline.agent_id input));
      [eexists; reflexivity|].
    destruct (List.length (FromOutline.outline_items input) =? 0)%nat;
      [eexists; reflexivity|].
    destruct (validateItems_Exists 0 H) as [t ->]. eexists; reflexivity.
  - intros HG [s Hs] Hne Hok. unfold FromOutline.fromOutlineTool.
    rewrite Hs.
    replace (List.length (FromOutline.outline_items input) =? 0)%nat
      with false
      by (destruct (FromOutline.outline_items input); [congruence|reflexivity]).
    rewrite (validateItems_Forall 0 Hok).
    apply first_call_logged.
    + intros a. grows_tac.
    + intros a. repeat yields_step. discriminate.
    + intros e. discriminate.
Qed.

Lemma fromOutlineTool_validates_items_witness :
  (exists text,
     FromOutline.fromOutlineTool Sample.env (saveOutputs Sample.env)
       (FromOutline.mkInput (lit "agent-001")
          [mkItem (lit "AI") 1; mkItem (lit "ML") 7] None)
       (Sample.world (lit "/srv/app/a.md") (lit "# A"))
     = (inr (ToolError text ValidationError),
        Sample.world (lit "/srv/app/a.md") (lit "# A")))
  /\ (exists res w',
        FromOutline.fromOutlineTool Sample.env (saveOutputs Sample.env)
          (FromOutline.mkInput (lit "agent-001")
             [mkItem (lit "AI") 1; mkItem (lit "ML") 2; mkItem (lit "NLP") 2]
             None)
          (Sample.world (lit "/srv/app/a.md") (lit "# A"))
        = (inr res, w')
        /\ errorTypeOf res <> Some ValidationError
        /\ exists tr,
             trace w'
             = tr ++ EvOutlineToMarkdown
                       [mkItem (lit "AI") 1; mkItem (lit "ML") 2;
                        mkItem (lit "NLP") 2]
                  :: trace (Sample.world (lit "/srv/app/a.md") (lit "# A"))).
Proof.
  split.
  - apply fromOutlineTool_validates_items.
    apply Exists_cons_tl, Exists_cons_hd. intros [_ H]. simpl in H. lia.
  - apply (fromOutlineTool_validates_items Sample.env (saveOutputs Sample.env)
             (FromOutline.mkInput (lit "agent-001")
                [mkItem (lit "AI") 1; mkItem (lit "ML") 2;
                 mkItem (lit "NLP") 2] None)).
    + intros a b c d. apply grows_saveOutputs.
    + eexists. reflexivity.
    + discriminate.
    + repeat constructor; simpl; try lia; intros H; discriminate H.
Defined.

(** C7, as the design states it, fails for the empty sequence: all of its
    items satisfy the invariants, yet fromOutline answers with a
    ValidationError and outlineToMarkdown never runs. *)
Lemma fromOutlineTool_rejects_empty_outline :
  let w := Sample.world (lit "/srv/app/a.md") (lit "# A") in
  let input := FromOutline.mkInput (lit "agent-001") [] None in
  Forall itemOk (FromOutline.outline_items input)
  /\ FromOutline.fromOutlineTool Sample.env (saveOutputs Sample.env) input w
     = (inr (ToolError (lit "Error: Outline items cannot be empty")
                       ValidationError), w).
Proof. split; [constructor | reflexivity]. Qed.

(* ================================================================== *)
(** * renderFile: a request to save that names no path *)
(* ================================================================== *)

(** Running an operation on a world whose shape is known. *)
Ltac run :=
  cbv beta iota zeta delta
      [bind tryCatch tryFinally settle call log liftE ret throw dateNow
       fscall setCache flush
       saveOutputs saveOutputs_writeFile ensureAgentDir mkdirRecursive
       writeFileSync openSync writeSync fsyncSync closeSync writeFile
       promiseAll RenderFile.readFile RenderFile.statSize
       cache stable sizes now faults trace tl].









(* ================================================================== *)
(** * The error kinds of the tools *)
(* ================================================================== *)

(** A body run under the catch-all handler of a tool always answers. *)
Lemma tryCatch_answers {O} (m : M (ToolResult O)) (h : exn -> ToolResult O) w :
  exists res w', tryCatch m (fun e => ret (h e)) w = (inr res, w').
Proof.
  unfold tryCatch. destruct (m w) as [[e|res] w']; eexists _, _; reflexivity.
Qed.

Lemma legacySave_kind env input svgc :
  yields (fun x => match x with
                   | inl r => toolErrorKind r
                   | inr _ => True
                   end)
         (RenderFile.legacySave env input svgc).
Proof.
  unfold RenderFile.legacySave.
  destruct (RenderFile.output_path input) as [out|];
    [|apply yields_ret; exact I].
  destruct (RenderFile.save_output input && negb (falsy out));
    [|apply yields_ret; exact I].
  apply yields_tryCatch.
  - destruct (negb _); [apply yields_ret; left; reflexivity|].
    repeat yields_step. exact I.
  - intros e. apply yields_ret. right; left; reflexivity.
Qed.

Lemma renderFileTool_kind env save input :
  yields toolErrorKind (RenderFile.renderFileTool env save input).
Proof.
  unfold RenderFile.renderFileTool.
  apply yields_tryCatch;
    [|intros e; apply yields_ret; right; right; reflexivity].
  repeat first
    [ match goal with
      | |- yields _ (bind (RenderFile.legacySave _ _ _) _) =>
          eapply yields_bind_strong; [apply legacySave_kind|];
          intros [?|?] ?
      end
    | yields_step ];
    try exact I; try (left; reflexivity); try (right; left; reflexivity).
  assumption.
Qed.

Lemma fromOutlineTool_kind env save input :
  yields toolErrorKind (FromOutline.fromOutlineTool env save input).
Proof.
  unfold FromOutline.fromOutlineTool.
  apply yields_tryCatch;
    [|intros e; apply yields_ret; right; right; reflexivity].
  destruct (sanitizeAgentId _); [apply yields_ret; left; reflexivity|].
  destruct (_ =? _)%nat; [apply yields_ret; left; reflexivity|].
  destruct (FromOutline.validateItems 0 _) as [r|] eqn:V.
  - apply validateItems_kind in V. destruct V as [t ->].
    apply yields_ret. left; reflexivity.
  - repeat yields_step. exact I.
Qed.

Lemma customizeTool_kind env save input :
  yields toolErrorKind (Customize.customizeTool env save input).
Proof.
  unfold Customize.customizeTool.
  apply yields_tryCatch;
    [|intros e; apply yields_ret; right; right; reflexivity].
  repeat yields_step; try exact I; left; reflexivity.
Qed.

Lemma toolErrorKind_not_limit {O} (res : ToolResult O) :
  toolErrorKind res -> errorTypeOf res <> Some ResourceLimitError.
Proof.
  destruct res as [t o|t k]; simpl; [discriminate|].
  intros [->|[->| ->]]; discriminate.
Qed.

(** C4, on the code.  No run of renderFile or customize ends in a
    ResourceLimitError, whatever the handler does: the tools compare neither
    the node count nor the depth with a limit, and an exception of the handler
    is reported as a RenderError.  On a document of 10,001 headings both
    tools succeed and report 10,001 nodes, as they do on 10,000. *)
Theorem tools_enforce_no_node_limit :
  (forall env save input w res w',
     RenderFile.renderFileTool env save input w = (inr res, w') ->
     errorTypeOf res <> Some ResourceLimitError)
  /\ (forall env save input w res w',
        Customize.customizeTool env save input w = (inr res, w') ->
        errorTypeOf res <> Some ResourceLimitError)
  /\ renderedNodeCount
       (RenderFile.renderFileTool Sample.env (saveOutputs Sample.env)
          (RenderFile.mkInput (lit "agent-001") (lit "big.md") false None None)
          (Sample.world (lit "/srv/app/big.md")
                        (Sample.manyHeadings (N.to_nat 10001))))
     = Some 10001%N
  /\ customizedNodeCount
       (Customize.customizeTool Sample.env (saveOutputs Sample.env)
          (Customize.mkInput (lit "agent-001")
             (Sample.manyHeadings (N.to_nat 10001)) None None None)
          (Sample.world (lit "/srv/app/big.md") []))
     = Some 10001%N
  /\ renderedNodeCount
       (RenderFile.renderFileTool Sample.env (saveOutputs Sample.env)
          (RenderFile.mkInput (lit "agent-001") (lit "big.md") false None None)
          (Sample.world (lit "/srv/app/big.md")
                        (Sample.manyHeadings (N.to_nat 10000))))
     = Some 10000%N.
Proof.
  split; [|split; [|split; [|split]]].
  - intros env save input w res w' H.
    apply toolErrorKind_not_limit. exact (@renderFileTool_kind _ _ _ _ _ _ H).
  - intros env save input w res w' H.
    apply toolErrorKind_not_limit. exact (@customizeTool_kind _ _ _ _ _ _ H).
  - vm_compute. reflexivity.
  - vm_compute. reflexivity.
  - vm_compute. reflexivity.
Qed.

(* ================================================================== *)
(** * The artifact writer: durability *)
(* ================================================================== *)

Lemma upd_same f k v : upd f k v k = Some v.
Proof. unfold upd. destruct (str_eq_dec k k); congruence. Qed.

(** What a successful writeFileSync leaves: the content, in the cache and on
    the disk, at the file's path, and every other file as it was. *)
Lemma writeFileSync_inr_inv env p c w u w' :
  writeFileSync env p c w = (inr u, w') ->
  (forall q, cache w' q
             = if str_eq_dec q (abspath env p) then Some c else cache w q)
  /\ (forall q, stable w' q
                = if str_eq_dec q (abspath env p) then Some c else stable w q).
Proof.
  destruct w as [ch st sz n f tr]. unfold writeFileSync. run.
  destruct f as [|[e1|] [|[e2|] [|[e3|] [|[e4|] f]]]]; run;
    intros H; try discriminate H; injection H as _ <-; run;
    rewrite ?upd_same; split; intros q; unfold upd;
    destruct (str_eq_dec q (abspath env p)); reflexivity.
Qed.

Lemma writeFileSync_durable env p c w u w' :
  writeFileSync env p c w = (inr u, w') ->
  durable w' (abspath env p) /\ cache w' (abspath env p) = Some c
  /\ forall q, durable w q -> durable w' q.
Proof.
  intros H. apply writeFileSync_inr_inv in H. destruct H as [Hc Hs].
  unfold durable. split; [split|split].
  - rewrite Hc. destruct (str_eq_dec _ _); congruence.
  - rewrite Hc, Hs. destruct (str_eq_dec _ _); congruence.
  - rewrite Hc. destruct (str_eq_dec _ _); congruence.
  - intros q [Hq1 Hq2]. split.
    + rewrite Hc. destruct (str_eq_dec _ _); [discriminate | exact Hq1].
    + rewrite Hc, Hs. destruct (str_eq_dec _ _); [reflexivity | exact Hq2].
Qed.

(** saveOutputs of lib/storage.ts returns only once its three files are on
    the disk. *)
Lemma saveOutputs_durable env a t svgc mdc w files w' :
  saveOutputs env a t svgc mdc w = (inr files, w') ->
  durable w' (abspath env (svg files))
  /\ durable w' (abspath env (html files))
  /\ durable w' (abspath env (md files))
  /\ cache w' (abspath env (md files)) = Some mdc.
Proof.
  unfold saveOutputs. intros H.
  apply bind_inr_inv in H. destruct H as (dir & w1 & _ & H).
  apply bind_inr_inv in H. destruct H as (ts & w2 & _ & H).
  apply bind_inr_inv in H. destruct H as (u1 & w3 & H1 & H).
  apply bind_inr_inv in H. destruct H as (u2 & w4 & H2 & H).
  apply bind_inr_inv in H. destruct H as (u3 & w5 & H3 & H).
  injection H as <- <-. simpl.
  apply writeFileSync_durable in H1, H2, H3.
  destruct H1 as (D1 & _ & _), H2 as (D2 & _ & P2), H3 as (D3 & C3 & P3).
  auto.
Qed.

(** So does saveStructureOutputs of lib/storage.ts, with its two files. *)
Lemma saveStructureOutputs_durable env a t mdc json w files w' :
  saveStructureOutputs env a t mdc json w = (inr files, w') ->
  durable w' (abspath env (smd files))
  /\ durable w' (abspath env (sjson files))
  /\ cache w' (abspath env (sjson files)) = Some json.
Proof.
  unfold saveStructureOutputs. intros H.
  apply bind_inr_inv in H. destruct H as (dir & w1 & _ & H).
  apply bind_inr_inv in H. destruct H as (ts & w2 & _ & H).
  apply bind_inr_inv in H. destruct H as (u1 & w3 & H1 & H).
  apply bind_inr_inv in H. destruct H as (u2 & w4 & H2 & H).
  injection H as <- <-. simpl.
  apply writeFileSync_durable in H1, H2.
  destruct H1 as (D1 & _ & _), H2 as (D2 & C2 & P2).
  auto.
Qed.

(** The bodies that write through fs.promises.writeFile never reach the
    disk. *)
Lemma saveOutputs_writeFile_stable env a t svgc mdc w :
  stable (snd (saveOutputs_writeFile env a t svgc mdc w)) = stable w.
Proof.
  unfold saveOutputs_writeFile, ensureAgentDir.
  unfold bind at 1. unfold bind at 1. unfold liftE at 1.
  destruct (sanitizeAgentId a); [reflexivity|].
  destruct w as [ch st sz n f tr]. run.
  destruct f as [|[e1|] [|[e2|] [|[e3|] [|[e4|] f]]]]; reflexivity.
Qed.

Lemma saveStructureOutputs_writeFile_stable env a t mdc json w :
  stable (snd (saveStructureOutputs_writeFile env a t mdc json w)) = stable w.
Proof.
  unfold saveStructureOutputs_writeFile, ensureAgentDir.
  unfold bind at 1. unfold bind at 1. unfold liftE at 1.
  destruct (sanitizeAgentId a); [reflexivity|].
  destruct w as [ch st sz n f tr]. run.
  destruct f as [|[e1|] [|[e2|] [|[e3|] f]]]; reflexivity.
Qed.

(** C5, on the code.  The storage module that stands next to renderFile.ts
    and fromOutline.ts writes its artifacts through fs.promises.writeFile and
    returns without a sync: whatever the inputs, stable storage is as it was
    before the call.  On a fresh agent directory saveOutputs reports the three
    paths while none of the files is on the disk, and renderFile, run with
    this body, answers with success.  (lib/storage.ts, which goes through
    open, write, fsync and close, is durable: [saveOutputs_durable].) *)
Theorem saveOutputs_writeFile_not_durable :
  (forall env a t svgc mdc w,
     stable (snd (saveOutputs_writeFile env a t svgc mdc w)) = stable w)
  /\ (forall env a t mdc json w,
        stable (snd (saveStructureOutputs_writeFile env a t mdc json w))
        = stable w)
  /\ (let w := Sample.world (lit "/srv/app/doc.md") (lit "# A") in
      let r := saveOutputs_writeFile Sample.env (lit "agent-001")
                 (lit "renderFile") (lit "<svg/>") (lit "# A") w in
      match fst r with
      | inr files =>
          cache (snd r) (svg files) = Some (lit "<svg/>")
          /\ cache (snd r) (md files) = Some (lit "# A")
          /\ stable (snd r) (svg files) = None
          /\ stable (snd r) (html files) = None
          /\ stable (snd r) (md files) = None
      | inl _ => False
      end)
  /\ (let w := Sample.world (lit "/srv/app/doc.md") (lit "# A") in
      let r := RenderFile.renderFileTool Sample.env
                 (saveOutputs_writeFile Sample.env)
                 (RenderFile.mkInput (lit "agent-001") (lit "doc.md") false
                                     None None) w in
      match fst r with
      | inr (ToolResponse _ o) =>
          stable (snd r) (svg (RenderFile.o_saved_files o)) = None
          /\ stable (snd r) (html (RenderFile.o_saved_files o)) = None
          /\ stable (snd r) (md (RenderFile.o_saved_files o)) = None
      | _ => False
      end).
Proof.
  split; [exact saveOutputs_writeFile_stable|].
  split; [exact saveStructureOutputs_writeFile_stable|].
  split; vm_compute; repeat split.
Qed.

(* ================================================================== *)
(** * Failures of the artifact writer, as the tools report them *)
(* ================================================================== *)

Lemma customizeTool_no_fs_error env save input :
  yields notFileSystemError (Customize.customizeTool env save input).
Proof.
  unfold Customize.customizeTool.
  apply yields_tryCatch; [|intros e; apply yields_ret; discriminate].
  repeat yields_step; discriminate.
Qed.

Lemma fromOutlineTool_no_fs_error env save input :
  yields notFileSystemError (FromOutline.fromOutlineTool env save input).
Proof.
  unfold FromOutline.fromOutlineTool.
  apply yields_tryCatch; [|intros e; apply yields_ret; discriminate].
  destruct (sanitizeAgentId _); [apply yields_ret; discriminate|].
  destruct (_ =? _)%nat; [apply yields_ret; discriminate|].
  destruct (FromOutline.validateItems 0 _) as [r|] eqn:V.
  - apply validateItems_kind in V. destruct V as [t ->].
    apply yields_ret. discriminate.
  - repeat yields_step. discriminate.
Qed.

(** C8, on the code.  customize and fromOutline never answer with a
    FileSystemError: an exception of saveOutputs reaches the catch-all handler
    and is reported as a RenderError.  With the disk filling up while the
    second artifact is written, customize and renderFile answer with a
    RenderError; the first artifact stays on the disk, the second stays
    truncated, the third is never created.  The explicit-path write of
    renderFile, in contrast, reports its failure as a FileSystemError. *)
Theorem artifact_write_failure_is_RenderError :
  (forall env save input w res w',
     Customize.customizeTool env save input w = (inr res, w') ->
     errorTypeOf res <> Some FileSystemError)
  /\ (forall env save input w res w',
        FromOutline.fromOutlineTool env save input w = (inr res, w') ->
        errorTypeOf res <> Some FileSystemError)
  /\ (let dir := lit "/opt/mcp-servers/markmap_output/agent-001/" in
      let w := Sample.withFaults
                 [None; None; None; None; None; None;
                  Some (Error (lit "ENOSPC: no space left on device"))]
                 (Sample.world (lit "/srv/app/doc.md") (lit "# A")) in
      let r := Customize.customizeTool Sample.env (saveOutputs Sample.env)
                 (Customize.mkInput (lit "agent-001") (lit "# A") None None
                                    None) w in
      errorKindOfRun r = Some RenderError
      /\ stable (snd r) (dir ++ lit "customize_1739450400000.svg")
         = Some (lit "<svg># A</svg>")
      /\ cache (snd r) (dir ++ lit "customize_1739450400000.html") = Some []
      /\ cache (snd r) (dir ++ lit "customize_1739450400000.md") = None)
  /\ (let dir := lit "/opt/mcp-servers/markmap_output/agent-001/" in
      let w := Sample.withFaults
                 [None; None; None; None; None; None; None; None;
                  Some (Error (lit "ENOSPC: no space left on device"))]
                 (Sample.world (lit "/srv/app/doc.md") (lit "# A")) in
      let r := RenderFile.renderFileTool Sample.env (saveOutputs Sample.env)
                 (RenderFile.mkInput (lit "agent-001") (lit "doc.md") false
                                     None None) w in
      errorKindOfRun r = Some RenderError
      /\ stable (snd r) (dir ++ lit "renderFile_1739450400000.svg")
         = Some (lit "<svg># A</svg>")
      /\ cache (snd r) (dir ++ lit "renderFile_1739450400000.html") = Some []
      /\ cache (snd r) (dir ++ lit "renderFile_1739450400000.md") = None)
  /\ (let w := Sample.withFaults
                 [None; None; None;
                  Some (Error (lit "ENOSPC: no space left on device"))]
                 (Sample.world (lit "/srv/app/doc.md") (lit "# A")) in
      let r := RenderFile.renderFileTool Sample.env (saveOutputs Sample.env)
                 (RenderFile.mkInput (lit "agent-001") (lit "doc.md") true
                                     (Some (lit "out/doc.svg")) None) w in
      errorKindOfRun r = Some FileSystemError).
Proof.
  split; [|split; [|split; [|split]]].
  - intros env save input w res w' H.
    exact (@customizeTool_no_fs_error _ _ _ _ _ _ H).
  - intros env save input w res w' H.
    exact (@fromOutlineTool_no_fs_error _ _ _ _ _ _ H).
  - vm_compute. repeat split.
  - vm_compute. repeat split.
  - vm_compute. reflexivity.
Qed.

(* ================================================================== *)
(** * Paths: named components *)
(* ================================================================== *)

Lemma splitSlash_slashFree (s : jsstring) :
  Forall (fun x => slashFree x = true) (splitSlash s).
Proof.
  induction s as [|c s IH]; simpl; [repeat constructor|].
  destruct (isSlash c) eqn:E; [constructor; [reflexivity | exact IH]|].
  destruct (splitSlash s) as [|seg segs]; [repeat constructor; simpl; rewrite E; reflexivity|].
  inversion IH; subst. constructor; [|assumption].
  unfold slashFree in *. simpl. rewrite E. simpl. assumption.
Qed.

Lemma plainSegment_iff (s : jsstring) :
  plainSegment s = true
  <-> s <> [] /\ s <> [DOT] /\ s <> [DOT; DOT] /\ slashFree s = true.
Proof.
  unfold plainSegment, slashFree, isDot, isDotDot.
  rewrite !andb_true_iff, !negb_true_iff.
  split.
  - intros [[[H1 H2] H3] H4]. repeat split; try assumption.
    + intros ->. discriminate.
    + intros ->. discriminate.
    + intros ->. discriminate.
  - intros (H1 & H2 & H3 & H4). repeat split; try assumption.
    + destruct s; [congruence | reflexivity].
    + destruct (str_eqb s [DOT]) eqn:E; [apply str_eqb_eq in E; congruence | reflexivity].
    + destruct (str_eqb s [DOT; DOT]) eqn:E; [apply str_eqb_eq in E; congruence | reflexivity].
Qed.

(** Normalising below the root leaves named components only. *)
Lemma normalizeSegs_false_plain (segs acc : list jsstring) :
  Forall (fun x => slashFree x = true) segs ->
  Forall (fun x => plainSegment x = true) acc ->
  Forall (fun x => plainSegment x = true) (normalizeSegs false acc segs).
Proof.
  intros H; revert acc; induction H as [|s segs Hs _ IH]; intros acc Hacc; simpl.
  - apply Forall_rev. exact Hacc.
  - destruct (falsy s || isDot s) eqn:E1; [apply IH, Hacc|].
    destruct (isDotDot s) eqn:E2.
    + destruct acc as [|top acc']; [apply IH; constructor|].
      inversion Hacc; subst.
      destruct (isDotDot top); apply IH; assumption.
    + apply IH. constructor; [|exact Hacc].
      apply orb_false_iff in E1. destruct E1 as [F D].
      unfold plainSegment. rewrite F, D, E2. exact Hs.
Qed.

Lemma endsWithSlash_app (a : jsstring) (c : char) :
  endsWithSlash (a ++ [c]) = isSlash c.
Proof. unfold endsWithSlash. rewrite rev_app_distr. reflexivity. Qed.

Lemma forallb_rev {A} (f : A -> bool) (l : list A) :
  forallb f (rev l) = forallb f l.
Proof.
  induction l as [|x l IH]; simpl; [reflexivity|].
  rewrite forallb_app, IH. simpl. rewrite andb_true_r. apply andb_comm.
Qed.

Lemma slashFree_endsWithSlash (s : jsstring) :
  slashFree s = true -> endsWithSlash s = false.
Proof.
  unfold endsWithSlash, slashFree. intros H. rewrite <- forallb_rev in H.
  destruct (rev s) as [|c r]; [reflexivity|]. simpl in H.
  apply andb_true_iff in H. destruct H as [H _]. apply negb_true_iff in H. exact H.
Qed.

Lemma app_endsWithSlash (a b : jsstring) :
  b <> [] -> endsWithSlash (a ++ b) = endsWithSlash b.
Proof.
  unfold endsWithSlash. intros Hb. rewrite rev_app_distr.
  destruct (rev b) as [|c r] eqn:E; [|reflexivity].
  apply (f_equal (@rev char)) in E. rewrite rev_involutive in E. contradiction.
Qed.

(** An absolute path without a trailing separator normalises to the
    separator-joined list of its named components. *)
Lemma normalize_absolute (p : jsstring) :
  isAbsolute p = true -> endsWithSlash p = false ->
  normalize p = SLASH :: joinSlash (normalizeSegs false [] (splitSlash p)).
Proof.
  intros Ha He. unfold normalize, normalizeString.
  replace (falsy p) with false by (destruct p; [discriminate | reflexivity]).
  rewrite Ha, He. simpl negb.
  destruct (joinSlash (normalizeSegs false [] (splitSlash p))); reflexivity.
Qed.

Lemma isAbsolute_app (a b : jsstring) :
  isAbsolute a = true -> isAbsolute (a ++ b) = true.
Proof. destruct a; [discriminate | intros H; exact H]. Qed.

(** Joining a named component to an absolute directory appends it to the
    directory's normal form. *)
Lemma join_child (d f : jsstring) :
  isAbsolute d = true -> plainSegment f = true ->
  join d f = SLASH :: joinSlash (normalizeSegs false [] (splitSlash d) ++ [f]).
Proof.
  intros Hd Hf. pose proof (proj1 (plainSegment_iff f) Hf) as (Hne & _ & _ & Hsf).
  unfold join. destruct d as [|c d]; [discriminate|].
  destruct f as [|x f]; [congruence|]. simpl falsy. cbv iota.
  rewrite normalize_absolute.
  - rewrite splitSlash_app, normalizeSegs_app.
    rewrite (splitSlash_noslash _ Hsf).
    rewrite normalizeSegs_plain by (constructor; [exact Hf | constructor]).
    rewrite rev_involutive. reflexivity.
  - exact Hd.
  - change ((c :: d) ++ SLASH :: x :: f) with ((c :: d) ++ (SLASH :: x :: f)).
    rewrite app_endsWithSlash by discriminate.
    change (SLASH :: x :: f) with ([SLASH] ++ (x :: f)).
    rewrite app_endsWithSlash by discriminate.
    apply slashFree_endsWithSlash, Hsf.
Qed.

Lemma normalizeSegs_split_plain (p : jsstring) :
  Forall (fun x => plainSegment x = true)
         (normalizeSegs false [] (splitSlash p)).
Proof.
  apply normalizeSegs_false_plain; [apply splitSlash_slashFree | constructor].
Qed.

Lemma joinSlash_inj (xs ys : list jsstring) :
  Forall (fun x => plainSegment x = true) xs ->
  Forall (fun x => plainSegment x = true) ys ->
  xs <> [] -> ys <> [] ->
  joinSlash xs = joinSlash ys -> xs = ys.
Proof.
  intros Hx Hy Nx Ny E.
  rewrite <- (splitSlash_joinSlash Hx Nx), <- (splitSlash_joinSlash Hy Ny), E.
  reflexivity.
Qed.

Lemma normalizeSegs_skip_empty (above : bool) (acc r : list jsstring) :
  normalizeSegs above acc ([] :: r) = normalizeSegs above acc r.
Proof. reflexivity. Qed.

(** The resolution of a normal absolute path is the path. *)
Lemma resolve_normal (cwd : jsstring) (segs : list jsstring) :
  Forall (fun x => plainSegment x = true) segs ->
  resolve cwd (SLASH :: joinSlash segs) = SLASH :: joinSlash segs.
Proof.
  intros H. unfold resolve. simpl falsy. cbv iota.
  change (isAbsolute (SLASH :: joinSlash segs)) with true. cbv iota.
  simpl negb. unfold normalizeString. f_equal. f_equal.
  change ((SLASH :: joinSlash segs) ++ [SLASH])
    with ([] ++ SLASH :: (joinSlash segs ++ [SLASH])).
  rewrite splitSlash_app. simpl (splitSlash []). simpl app.
  rewrite normalizeSegs_skip_empty.
  destruct segs as [|s segs]; [reflexivity|].
  rewrite splitSlash_app.
  rewrite (splitSlash_joinSlash H) by discriminate.
  simpl (splitSlash []).
  rewrite normalizeSegs_app. rewrite (normalizeSegs_plain false _ H).
  simpl (rev [] ++ _). rewrite normalizeSegs_skip_empty.
  cbn [normalizeSegs]. apply rev_involutive.
Qed.

(* ================================================================== *)
(** * Numerals and the names of the artifacts *)
(* ================================================================== *)

Lemma digitsFuel_value (fuel : nat) (n : N) (acc : jsstring) :
  (n < 2 ^ N.of_nat fuel)%N ->
  fold_left (fun a c => (10 * a + (c - 48))%N) (digitsFuel fuel n acc) 0%N
  = fold_left (fun a c => (10 * a + (c - 48))%N) acc n.
Proof.
  revert n acc; induction fuel as [|f IH]; intros n acc Hn.
  - simpl in *. replace n with 0%N by lia. reflexivity.
  - cbn [digitsFuel]. destruct (n <? 10)%N eqn:E.
    + apply N.ltb_lt in E. cbn [fold_left]. f_equal.
      rewrite N.mod_small by exact E.
      rewrite (N.add_comm 48), N.add_sub. reflexivity.
    + apply N.ltb_ge in E. rewrite IH.
      * cbn [fold_left]. f_equal.
        rewrite (N.add_comm 48), N.add_sub. symmetry.
        apply N.div_mod. discriminate.
      * rewrite Nat2N.inj_succ, N.pow_succ_r' in Hn.
        apply N.Div0.div_lt_upper_bound. lia.
Qed.

(** Reading back the decimal rendering of a number gives the number. *)
Lemma decimalValue_numToString (n : N) : decimalValue (numToString n) = n.
Proof.
  unfold decimalValue, numToString. rewrite digitsFuel_value; [reflexivity|].
  rewrite Nat2N.inj_succ, N2Nat.id.
  destruct n as [|p]; [reflexivity|].
  apply N.log2_spec. reflexivity.
Qed.

Lemma numToString_inj (n m : N) : numToString n = numToString m -> n = m.
Proof.
  intros H. apply (f_equal decimalValue) in H.
  rewrite !decimalValue_numToString in H. exact H.
Qed.

Lemma digitsFuel_digits (fuel : nat) (n : N) (acc : jsstring) :
  forallb isDigit acc = true -> forallb isDigit (digitsFuel fuel n acc) = true.
Proof.
  revert n acc; induction fuel as [|f IH]; intros n acc Hacc; [exact Hacc|].
  cbn [digitsFuel].
  assert (D : isDigit (48 + n mod 10)%N = true).
  { unfold isDigit, in_range.
    pose proof (N.mod_lt n 10 ltac:(discriminate)) as Hm.
    set (m := (n mod 10)%N) in *. clearbody m.
    apply andb_true_iff. split; apply N.leb_le; lia. }
  destruct (n <? 10)%N; [|apply IH]; cbn [forallb]; rewrite D; exact Hacc.
Qed.

Lemma numToString_digits (n : N) : forallb isDigit (numToString n) = true.
Proof. apply digitsFuel_digits. reflexivity. Qed.

Lemma digitsFuel_nonempty (fuel : nat) (n : N) (acc : jsstring) :
  digitsFuel (S fuel) n acc <> [].
Proof.
  revert n acc; induction fuel as [|f IH]; intros n acc.
  - simpl. destruct (n <? 10)%N; discriminate.
  - cbn [digitsFuel] in *. destruct (n <? 10)%N; [discriminate|].
    specialize (IH (n / 10)%N ((48 + n mod 10)%N :: acc)).
    cbn [digitsFuel] in IH. exact IH.
Qed.

Lemma numToString_nonempty (n : N) : numToString n <> [].
Proof. apply digitsFuel_nonempty. Qed.

Lemma digit_not_slash (c : char) : isDigit c = true -> isSlash c = false.
Proof.
  unfold isDigit, in_range, isSlash, char_eqb, SLASH. intros H.
  bool_to_prop. apply N.eqb_neq. lia.
Qed.

Lemma agentIdChar_not_slash (c : char) :
  isAgentIdChar c = true -> isSlash c = false.
Proof.
  unfold isAgentIdChar, isLower, isUpper, isDigit, in_range, isSlash,
    char_eqb, SLASH.
  intros H. bool_to_prop; apply N.eqb_neq; lia.
Qed.

Lemma forallb_impl {A} (f g : A -> bool) (l : list A) :
  (forall x, f x = true -> g x = true) ->
  forallb f l = true -> forallb g l = true.
Proof.
  intros H. induction l as [|x l IH]; simpl; [reflexivity|].
  rewrite !andb_true_iff. intros [Hx Hl]. auto.
Qed.

Lemma Stripped_allowed (a s : jsstring) :
  Stripped a s -> forallb isAgentIdChar s = true.
Proof.
  induction 1 as [|c a s Hc _ IH|c a s Hc _ IH]; simpl;
    [reflexivity | rewrite Hc; exact IH | exact IH].
Qed.

Lemma allowed_slashFree (s : jsstring) :
  forallb isAgentIdChar s = true -> slashFree s = true.
Proof.
  apply forallb_impl. intros c H. apply agentIdChar_not_slash in H.
  rewrite H. reflexivity.
Qed.

Lemma slashFree_app (a b : jsstring) :
  slashFree (a ++ b) = slashFree a && slashFree b.
Proof. apply forallb_app. Qed.

(** A file name of the artifact writer is a named component. *)
Lemma fileName_plain (toolName ext : jsstring) (ts : N) :
  slashFree toolName = true -> slashFree ext = true ->
  plainSegment (baseNameOf toolName ts ++ ext) = true.
Proof.
  intros Ht He. apply plainSegment_iff. unfold baseNameOf.
  assert (U : In 95%N ((toolName ++ lit "_" ++ numToString ts) ++ ext)).
  { apply in_or_app. left. apply in_or_app. right. left. reflexivity. }
  repeat split.
  - intros E. rewrite E in U. destruct U.
  - intros E. rewrite E in U. destruct U as [U|[]]. discriminate U.
  - intros E. rewrite E in U. destruct U as [U|[U|[]]]; discriminate U.
  - rewrite !slashFree_app, Ht, He. simpl.
    rewrite andb_true_r.
    apply (forallb_impl isDigit); [|apply numToString_digits].
    intros c H. rewrite (digit_not_slash _ H). reflexivity.
Qed.

(* ================================================================== *)
(** * The artifact writer: directories and paths *)
(* ================================================================== *)

Lemma components_plain (p : jsstring) :
  Forall (fun x => plainSegment x = true) (components p).
Proof. apply normalizeSegs_split_plain. Qed.

Lemma components_normal (D : list jsstring) :
  Forall (fun x => plainSegment x = true) D ->
  components (SLASH :: joinSlash D) = D.
Proof.
  intros H. unfold components.
  change (SLASH :: joinSlash D) with ([] ++ SLASH :: joinSlash D).
  rewrite splitSlash_app. simpl (splitSlash []). simpl app.
  rewrite normalizeSegs_skip_empty.
  destruct D as [|d D]; [reflexivity|].
  rewrite (splitSlash_joinSlash H) by discriminate.
  apply (normalizeSegs_plain false [] H).
Qed.

(** The directory of an identifier, for an absolute storage root: the
    components of the root followed by the stripped identifier, normalised. *)
Lemma agentDir_shape (root s : jsstring) :
  isAbsolute root = true -> slashFree s = true -> s <> [] ->
  join root s
  = SLASH :: joinSlash (normalizeSegs false (rev (components root)) [s]).
Proof.
  intros Hr Hs Hne. unfold join.
  replace (falsy root) with false by (destruct root; [discriminate|reflexivity]).
  replace (falsy s) with false by (destruct s; [congruence|reflexivity]).
  rewrite normalize_absolute.
  - rewrite splitSlash_app, normalizeSegs_app, (splitSlash_noslash _ Hs).
    reflexivity.
  - apply isAbsolute_app, Hr.
  - change (root ++ SLASH :: s) with (root ++ ([SLASH] ++ s)).
    rewrite !app_endsWithSlash; [apply slashFree_endsWithSlash, Hs | exact Hne |].
    destruct s; discriminate.
Qed.

Lemma agentDir_plain (root s : jsstring) :
  slashFree s = true ->
  Forall (fun x => plainSegment x = true)
         (normalizeSegs false (rev (components root)) [s]).
Proof.
  intros Hs. apply normalizeSegs_false_plain.
  - constructor; [exact Hs | constructor].
  - apply Forall_rev, components_plain.
Qed.

(** The path of an artifact: the directory of the identifier, then the file
    name. *)
Lemma artifact_path_shape (root s f : jsstring) :
  isAbsolute root = true -> slashFree s = true -> s <> [] ->
  plainSegment f = true ->
  join (join root s) f
  = SLASH :: joinSlash (normalizeSegs false (rev (components root)) [s]
                        ++ [f]).
Proof.
  intros Hr Hs Hne Hf. rewrite (@agentDir_shape root s Hr Hs Hne).
  rewrite join_child by (try reflexivity; exact Hf).
  fold (components (SLASH :: joinSlash
          (normalizeSegs false (rev (components root)) [s]))).
  rewrite components_normal by (apply agentDir_plain, Hs). reflexivity.
Qed.

Lemma sanitizeAgentId_slashFree (a s : jsstring) :
  sanitizeAgentId a = inr s -> slashFree s = true /\ s <> [].
Proof.
  intros H. apply sanitizeAgentId_inr in H. destruct H as [Hne HS].
  split; [apply allowed_slashFree, (Stripped_allowed HS) | exact Hne].
Qed.

Lemma ensureAgentDir_inr_inv env a w dir w' :
  ensureAgentDir env a w = (inr dir, w') ->
  exists s, sanitizeAgentId a = inr s
            /\ dir = join (MARKMAP_STORAGE_ROOT env) s /\ now w' = now w.
Proof.
  unfold ensureAgentDir, mkdirRecursive. intros H.
  apply bind_inr_inv in H. destruct H as (s & w1 & H1 & H).
  apply bind_inr_inv in H. destruct H as (u & w2 & H2 & H).
  unfold liftE in H1. injection H1 as H1 <-. injection H as <- <-.
  apply fscall_inr_inv in H2. subst w2. exists s. auto.
Qed.

Lemma writeFileSync_now env p c w r w' :
  writeFileSync env p c w = (r, w') -> now w' = now w.
Proof.
  destruct w as [ch st sz n f tr]. unfold writeFileSync. run.
  destruct f as [|[e1|] [|[e2|] [|[e3|] [|[e4|] f]]]]; run;
    intros H; injection H as _ <-; reflexivity.
Qed.

(** The paths saveOutputs returns: the three file names, in the directory of
    the stripped identifier, stamped with the clock at the time of the
    call. *)
Lemma saveOutputs_inr_inv env a t svgc mdc w files w' :
  saveOutputs env a t svgc mdc w = (inr files, w') ->
  exists s,
    sanitizeAgentId a = inr s
    /\ files
       = mkSaved
           (join (join (MARKMAP_STORAGE_ROOT env) s)
                 (baseNameOf t (now w) ++ lit ".svg"))
           (join (join (MARKMAP_STORAGE_ROOT env) s)
                 (baseNameOf t (now w) ++ lit ".html"))
           (join (join (MARKMAP_STORAGE_ROOT env) s)
                 (baseNameOf t (now w) ++ lit ".md")).
Proof.
  unfold saveOutputs. intros H.
  apply bind_inr_inv in H. destruct H as (dir & w1 & H0 & H).
  apply bind_inr_inv in H. destruct H as (ts & w2 & Hts & H).
  apply bind_inr_inv in H. destruct H as (u1 & w3 & H1 & H).
  apply bind_inr_inv in H. destruct H as (u2 & w4 & H2 & H).
  apply bind_inr_inv in H. destruct H as (u3 & w5 & H3 & H).
  injection H as <- <-.
  apply ensureAgentDir_inr_inv in H0. destruct H0 as (s & Hs & -> & Hn).
  unfold dateNow in Hts. injection Hts as <- <-.
  exists s. rewrite Hn. auto.
Qed.

Lemma startsWith_cons_same (c : char) (a b : jsstring) :
  startsWith (c :: a) (c :: b) = startsWith a b.
Proof. simpl. unfold char_eqb. rewrite N.eqb_refl. reflexivity. Qed.




Lemma artifact_path_inj (root s f g : jsstring) :
  isAbsolute root = true -> slashFree s = true -> s <> [] ->
  plainSegment f = true -> plainSegment g = true ->
  join (join root s) f = join (join root s) g -> f = g.
Proof.
  intros Hr Hs Hne Hf Hg.
  rewrite (@artifact_path_shape root s f Hr Hs Hne Hf).
  rewrite (@artifact_path_shape root s g Hr Hs Hne Hg).
  pose proof (@agentDir_plain root s Hs) as HD.
  set (D := normalizeSegs false (rev (components root)) [s]) in *.
  clearbody D. intros E. injection E as E. apply joinSlash_inj in E.
  - apply app_inv_head in E. congruence.
  - apply Forall_app. split; [exact HD | repeat constructor; exact Hf].
  - apply Forall_app. split; [exact HD | repeat constructor; exact Hg].
  - destruct D; discriminate.
  - destruct D; discriminate.
Qed.




Lemma baseNameOf_inj (t : jsstring) (n m : N) :
  baseNameOf t n = baseNameOf t m -> n = m.
Proof.
  unfold baseNameOf. intros H. apply app_inv_head in H.
  apply app_inv_head in H. apply numToString_inj, H.
Qed.

(** X3. File names are told apart by the clock alone: two successful calls of
    saveOutputs for the same identifier and tool return the same three paths
    exactly when they read the same millisecond from the clock; at different
    milliseconds all three paths differ. *)
Theorem saveOutputs_paths_by_clock env a t svgc1 mdc1 svgc2 mdc2
        w1 w2 files1 files2 w1' w2' :
  isAbsolute (MARKMAP_STORAGE_ROOT env) = true ->
  slashFree t = true ->
  saveOutputs env a t svgc1 mdc1 w1 = (inr files1, w1') ->
  saveOutputs env a t svgc2 mdc2 w2 = (inr files2, w2') ->
  (now w1 = now w2 -> files1 = files2)
  /\ (now w1 <> now w2 ->
      svg files1 <> svg files2 /\ html files1 <> html files2
      /\ md files1 <> md files2).
Proof.
  intros Hr Ht H1 H2.
  apply saveOutputs_inr_inv in H1, H2.
  destruct H1 as (s & Hs & ->), H2 as (s' & Hs' & ->).
  assert (s' = s) by congruence. subst s'.
  destruct (@sanitizeAgentId_slashFree a s Hs) as [Hsf Hne].
  split; [intros ->; reflexivity|].
  intros Hn. cbn [svg html md].
  repeat split; intros E; apply artifact_path_inj in E;
    try assumption; try (apply fileName_plain; [exact Ht | reflexivity]);
    apply app_inv_tail in E; apply baseNameOf_inj in E; contradiction.
Qed.

Lemma saveOutputs_paths_by_clock_witness :
  exists files1 w1' files2 w2',
    saveOutputs Sample.env (lit "agent-001") (lit "generate") (lit "<svg/>")
      (lit "# A") (Sample.world [] []) = (inr files1, w1')
    /\ saveOutputs Sample.env (lit "agent-001") (lit "generate")
         (lit "<svg/>") (lit "# B")
         (mkWorld (fun _ => None) (fun _ => None) (fun _ => 0%N)
                  1739450400001%N [] [])
       = (inr files2, w2')
    /\ svg files1 <> svg files2.
Proof.
  destruct (saveOutputs Sample.env (lit "agent-001") (lit "generate")
              (lit "<svg/>") (lit "# A") (Sample.world [] []))
    as [[e|files1] w1'] eqn:E1; [vm_compute in E1; discriminate E1|].
  destruct (saveOutputs Sample.env (lit "agent-001") (lit "generate")
              (lit "<svg/>") (lit "# B")
              (mkWorld (fun _ => None) (fun _ => None) (fun _ => 0%N)
                       1739450400001%N [] []))
    as [[e|files2] w2'] eqn:E2; [vm_compute in E2; discriminate E2|].
  exists files1, w1', files2, w2'. split; [reflexivity|].
  split; [reflexivity|].
  destruct (@saveOutputs_paths_by_clock Sample.env (lit "agent-001")
              (lit "generate") (lit "<svg/>") (lit "# A") (lit "<svg/>")
              (lit "# B") _ _ files1 files2 w1' w2' eq_refl eq_refl E1 E2)
    as [_ H].
  apply H. discriminate.
Defined.

Lemma plain_step (C : list jsstring) (s : jsstring) :
  plainSegment s = true ->
  normalizeSegs false (rev C) [s] = C ++ [s].
Proof.
  intros Hs. rewrite normalizeSegs_plain by (repeat constructor; exact Hs).
  rewrite rev_involutive. reflexivity.
Qed.

(** X4. For an absolute storage root and an accepted identifier whose stripped
    form is neither "." nor "..", ensureAgentDir creates (one recursive mkdir)
    and returns the direct child of the storage root named by the stripped
    identifier; identifiers with different such stripped forms get different
    directories, identifiers with the same stripped form share one. *)
Theorem ensureAgentDir_child env a s w :
  isAbsolute (MARKMAP_STORAGE_ROOT env) = true ->
  sanitizeAgentId a = inr s -> s <> [DOT] -> s <> [DOT; DOT] ->
  hd None (faults w) = None ->
  let dir := SLASH :: joinSlash (components (MARKMAP_STORAGE_ROOT env) ++ [s]) in
  ensureAgentDir env a w
  = (inr dir,
     mkWorld (cache w) (stable w) (sizes w) (now w) (tl (faults w))
             (EvMkdir dir :: trace w))
  /\ (forall a' s',
        sanitizeAgentId a' = inr s' -> s' <> [DOT] -> s' <> [DOT; DOT] ->
        (join (MARKMAP_STORAGE_ROOT env) s' = join (MARKMAP_STORAGE_ROOT env) s
         <-> s' = s)).
Proof.
  intros Hr Hs Hd Hdd Hf dir.
  destruct (@sanitizeAgentId_slashFree a s Hs) as [Hsf Hne].
  assert (Hp : plainSegment s = true) by (apply plainSegment_iff; auto).
  assert (Hj : join (MARKMAP_STORAGE_ROOT env) s = dir).
  { rewrite (@agentDir_shape _ s Hr Hsf Hne), plain_step by exact Hp.
    reflexivity. }
  split.
  - unfold ensureAgentDir, mkdirRecursive, abspath.
    unfold bind at 1. unfold liftE. rewrite Hs. rewrite Hj.
    unfold dir at 1. rewrite resolve_normal
      by (apply Forall_app; split; [apply components_plain | repeat constructor; exact Hp]).
    fold dir. unfold bind, fscall, ret.
    destruct (faults w) as [|[e|] l]; try discriminate Hf; reflexivity.
  - intros a' s' Hs' Hd' Hdd'.
    destruct (@sanitizeAgentId_slashFree a' s' Hs') as [Hsf' Hne'].
    assert (Hp' : plainSegment s' = true) by (apply plainSegment_iff; auto).
    split; [|intros ->; reflexivity].
    rewrite Hj, (@agentDir_shape _ s' Hr Hsf' Hne'), plain_step by exact Hp'.
    unfold dir. intros E. injection E as E. apply joinSlash_inj in E.
    + apply app_inv_head in E. congruence.
    + apply Forall_app. split; [apply components_plain | repeat constructor; exact Hp'].
    + apply Forall_app. split; [apply components_plain | repeat constructor; exact Hp].
    + destruct (components _); discriminate.
    + destruct (components _); discriminate.
Qed.

Lemma ensureAgentDir_child_witness :
  ensureAgentDir Sample.env (lit "agent/001") (Sample.world [] [])
  = (inr (lit "/opt/mcp-servers/markmap_output/agent001"),
     mkWorld (cache (Sample.world [] [])) (stable (Sample.world [] []))
             (sizes (Sample.world [] [])) 1739450400000%N []
             [EvMkdir (lit "/opt/mcp-servers/markmap_output/agent001")]).
Proof.
  exact (proj1 (@ensureAgentDir_child Sample.env (lit "agent/001")
                  (lit "agent001") (Sample.world [] []) eq_refl eq_refl
                  ltac:(discriminate) ltac:(discriminate) eq_refl)).
Defined.

Lemma sanitizeAgentId_of_Stripped (a s : jsstring) :
  Stripped a s -> s <> [] -> sanitizeAgentId a = inr s.
Proof.
  intros HS Hne. rewrite sanitizeAgentId_eq, <- (Stripped_fun HS).
  destruct s; [congruence | reflexivity].
Qed.

Lemma removelast_rev_tl {A} (l : list A) : rev (tl (rev l)) = removelast l.
Proof.
  induction l as [|x l IH] using rev_ind; [reflexivity|].
  rewrite rev_app_distr. simpl. rewrite rev_involutive, removelast_last.
  reflexivity.
Qed.

(** X5. The identifiers made of dots leave their own subdirectory: with an
    absolute storage root, an identifier whose stripped form is "." is given
    the storage root itself as its directory, and one whose stripped form is
    ".." the parent of the storage root. *)
Theorem ensureAgentDir_dot_ids env a w :
  isAbsolute (MARKMAP_STORAGE_ROOT env) = true ->
  hd None (faults w) = None ->
  (Stripped a [DOT] ->
   fst (ensureAgentDir env a w)
   = inr (SLASH :: joinSlash (components (MARKMAP_STORAGE_ROOT env))))
  /\ (Stripped a [DOT; DOT] ->
      fst (ensureAgentDir env a w)
      = inr (SLASH :: joinSlash
                        (removelast (components (MARKMAP_STORAGE_ROOT env))))).
Proof.
  intros Hr Hf.
  assert (R : forall s, sanitizeAgentId a = inr s ->
              fst (ensureAgentDir env a w)
              = inr (join (MARKMAP_STORAGE_ROOT env) s)).
  { intros s Hs. unfold ensureAgentDir, mkdirRecursive.
    unfold bind at 1. unfold liftE. rewrite Hs. unfold bind, fscall, ret.
    destruct (faults w) as [|[e|] l]; try discriminate Hf; reflexivity. }
  split; intros HS.
  - rewrite (R _ (sanitizeAgentId_of_Stripped HS ltac:(discriminate))).
    rewrite agentDir_shape by (try reflexivity; try discriminate; exact Hr).
    cbn [normalizeSegs]. simpl (falsy [DOT] || isDot [DOT]). cbv iota.
    rewrite rev_involutive. reflexivity.
  - rewrite (R _ (sanitizeAgentId_of_Stripped HS ltac:(discriminate))).
    rewrite agentDir_shape by (try reflexivity; try discriminate; exact Hr).
    cbn [normalizeSegs]. simpl (falsy [DOT; DOT] || isDot [DOT; DOT]).
    simpl (isDotDot [DOT; DOT]). cbv iota.
    rewrite <- removelast_rev_tl.
    pose proof (components_plain (MARKMAP_STORAGE_ROOT env)) as HC.
    apply Forall_rev in HC.
    destruct (rev (components (MARKMAP_STORAGE_ROOT env))) as [|top acc'];
      [reflexivity|].
    inversion HC as [|? ? Htop _]; subst.
    apply plainSegment_iff in Htop. destruct Htop as (_ & _ & Hdd & _).
    destruct (isDotDot top) eqn:E;
      [apply str_eqb_eq in E; contradiction | reflexivity].
Qed.

Lemma ensureAgentDir_dot_ids_witness :
  fst (ensureAgentDir Sample.env (lit "../") (Sample.world [] []))
  = inr (lit "/opt/mcp-servers")
  /\ fst (ensureAgentDir Sample.env (lit "@.") (Sample.world [] []))
     = inr (lit "/opt/mcp-servers/markmap_output").
Proof.
  destruct (@ensureAgentDir_dot_ids Sample.env (lit "../")
              (Sample.world [] []) eq_refl eq_refl) as [_ H2].
  destruct (@ensureAgentDir_dot_ids Sample.env (lit "@.")
              (Sample.world [] []) eq_refl eq_refl) as [H1 _].
  split.
  - apply H2. repeat first [ apply Stripped_nil
                           | apply Stripped_keep; [reflexivity|]
                           | apply Stripped_drop; [reflexivity|] ].
  - apply H1. repeat first [ apply Stripped_nil
                           | apply Stripped_keep; [reflexivity|]
                           | apply Stripped_drop; [reflexivity|] ].
Defined.

(** X6. For a rejected identifier the artifact writer does nothing: each of
    ensureAgentDir, saveOutputs and saveStructureOutputs, in both bodies,
    throws the sanitizer's error and leaves the world, its log of file-system
    calls included, as it was. *)
Theorem writer_rejects_before_touching env a t x y w e :
  sanitizeAgentId a = inl e ->
  ensureAgentDir env a w = (inl e, w)
  /\ saveOutputs env a t x y w = (inl e, w)
  /\ saveStructureOutputs env a t x y w = (inl e, w)
  /\ saveOutputs_writeFile env a t x y w = (inl e, w)
  /\ saveStructureOutputs_writeFile env a t x y w = (inl e, w).
Proof.
  intros H.
  assert (E : ensureAgentDir env a w = (inl e, w)).
  { unfold ensureAgentDir. unfold bind at 1. unfold liftE. rewrite H.
    reflexivity. }
  repeat split; try exact E;
    unfold saveOutputs, saveStructureOutputs, saveOutputs_writeFile,
      saveStructureOutputs_writeFile;
    apply bind_err; exact E.
Qed.

Lemma writer_rejects_before_touching_witness :
  saveOutputs Sample.env (lit "@#$%") (lit "generate") (lit "<svg/>")
    (lit "# A") (Sample.world [] [])
  = (inl (Error (lit
       "agent_id contains no valid characters (allowed: a-zA-Z0-9._-)")),
     Sample.world [] []).
Proof.
  exact (proj1 (proj2 (@writer_rejects_before_touching Sample.env (lit "@#$%")
    (lit "generate") (lit "<svg/>") (lit "# A") (Sample.world [] []) _
    eq_refl))).
Defined.

Lemma joinSlash_snoc (C : list jsstring) (x : jsstring) :
  joinSlash (C ++ [x])
  = match C with [] => x | _ :: _ => joinSlash C ++ SLASH :: x end.
Proof.
  induction C as [|c C IH]; [reflexivity|].
  destruct C as [|c' C]; [reflexivity|].
  change (joinSlash ((c :: c' :: C) ++ [x]))
    with (c ++ SLASH :: joinSlash ((c' :: C) ++ [x])).
  rewrite IH. change (joinSlash (c :: c' :: C))
    with (c ++ SLASH :: joinSlash (c' :: C)).
  rewrite <- app_assoc. reflexivity.
Qed.

(** X7. The guard compares strings, not components: for an absolute storage
    root, the guard of an identifier with stripped form s accepts every file
    in the directory of any identifier whose stripped form begins with s. *)
Theorem guard_accepts_extended_identifier env a s a' s' f :
  isAbsolute (MARKMAP_STORAGE_ROOT env) = true ->
  sanitizeAgentId a = inr s -> s <> [DOT] -> s <> [DOT; DOT] ->
  sanitizeAgentId a' = inr s' -> s' <> [DOT] -> s' <> [DOT; DOT] ->
  startsWith s' s = true ->
  plainSegment f = true ->
  RenderFile.validateFilePath env
    (join (join (MARKMAP_STORAGE_ROOT env) s') f) (Some a) = true.
Proof.
  intros Hr Hs Hd Hdd Hs' Hd' Hdd' Hpre Hf.
  destruct (@sanitizeAgentId_slashFree a s Hs) as [Hsf Hne].
  destruct (@sanitizeAgentId_slashFree a' s' Hs') as [Hsf' Hne'].
  assert (Hp : plainSegment s = true) by (apply plainSegment_iff; auto).
  assert (Hp' : plainSegment s' = true) by (apply plainSegment_iff; auto).
  pose proof (@sanitizeAgentId_inr a s Hs) as [_ HS].
  unfold RenderFile.validateFilePath.
  destruct (startsWith _ (resolve (cwd env) (cwd env))); [reflexivity|].
  rewrite (Stripped_nonempty_source HS Hne). simpl negb. cbv iota.
  rewrite <- (Stripped_fun HS), (length_pos Hne).
  rewrite (@artifact_path_shape _ s' f Hr Hsf' Hne' Hf).
  rewrite (@agentDir_shape _ s Hr Hsf Hne).
  rewrite !plain_step by assumption.
  pose proof (components_plain (MARKMAP_STORAGE_ROOT env)) as HC.
  set (C := components (MARKMAP_STORAGE_ROOT env)) in *. clearbody C.
  rewrite !resolve_normal;
    try (repeat (apply Forall_app; split); try exact HC;
         repeat constructor; assumption).
  rewrite startsWith_cons_same.
  apply startsWith_iff in Hpre. destruct Hpre as [r ->].
  assert (E : joinSlash (C ++ [s ++ r]) = joinSlash (C ++ [s]) ++ r).
  { rewrite !joinSlash_snoc. destruct C; [reflexivity|].
    rewrite <- app_assoc. reflexivity. }
  assert (E2 : joinSlash ((C ++ [s ++ r]) ++ [f])
               = joinSlash (C ++ [s ++ r]) ++ SLASH :: f).
  { rewrite (joinSlash_snoc (C ++ [s ++ r])).
    destruct (C ++ [s ++ r]) eqn:EC; [destruct C; discriminate | reflexivity]. }
  match goal with
  | |- (if ?b then true else false) = true =>
      assert (G : b = true); [|rewrite G; reflexivity]
  end.
  apply startsWith_iff. exists (r ++ SLASH :: f).
  etransitivity; [exact E2|]. rewrite E, <- app_assoc. reflexivity.
Qed.

Lemma guard_accepts_extended_identifier_witness :
  RenderFile.validateFilePath Sample.env
    (lit "/opt/mcp-servers/markmap_output/agent-10/generate_1.md")
    (Some (lit "agent-1")) = true.
Proof.
  exact (@guard_accepts_extended_identifier Sample.env (lit "agent-1")
           (lit "agent-1") (lit "agent-10") (lit "agent-10")
           (lit "generate_1.md") eq_refl eq_refl ltac:(discriminate)
           ltac:(discriminate) eq_refl ltac:(discriminate)
           ltac:(discriminate) eq_refl eq_refl).
Defined.

(* ================================================================== *)
(** * The identifier sanitizer: its results *)
(* ================================================================== *)

Lemma deleteAll_length (cls : char -> bool) (s : jsstring) :
  (List.length (deleteAll cls s) <= List.length s)%nat.
Proof.
  induction s as [|c s IH]; simpl; [lia|].
  destruct (cls c); simpl; lia.
Qed.

(** X8. The result of sanitizeAgentId is a fixed point of it and a safe
    directory name: sanitizing it again returns it unchanged, it is made of
    letters, digits, ".", "_" and "-" only, so holds no path separator, and
    it is no longer than the input. *)
Theorem sanitizeAgentId_idempotent (a s : jsstring) :
  sanitizeAgentId a = inr s ->
  sanitizeAgentId s = inr s
  /\ forallb isAgentIdChar s = true
  /\ ~ In SLASH s
  /\ (List.length s <= List.length a)%nat.
Proof.
  intros H. pose proof (@sanitizeAgentId_inr a s H) as [Hne HS].
  pose proof (Stripped_allowed HS) as Hall.
  split; [|split; [|split]].
  - apply sanitizeAgentId_of_Stripped; [apply Stripped_allowed_id, Hall | exact Hne].
  - exact Hall.
  - intros Hin. pose proof (allowed_slashFree _ Hall) as Hsf.
    unfold slashFree in Hsf. rewrite forallb_forall in Hsf.
    specialize (Hsf _ Hin). discriminate Hsf.
  - rewrite (Stripped_fun HS). apply deleteAll_length.
Qed.

Lemma sanitizeAgentId_idempotent_witness :
  sanitizeAgentId (lit "..etc") = inr (lit "..etc").
Proof.
  exact (proj1 (@sanitizeAgentId_idempotent (lit "../etc") (lit "..etc")
                  eq_refl)).
Defined.

(* ================================================================== *)
(** * The artifact writer: contents and file-system calls *)
(* ================================================================== *)




(** X10. writeFileSync releases its descriptor on every path: once the open
    has succeeded, the last file-system call of the run is the close of that
    descriptor, whether the write and the sync succeed or throw; when the
    open itself throws, nothing else is attempted and the file is as it
    was. *)
Theorem writeFileSync_closes env p c w :
  let fd := abspath env p in
  (forall e, hd None (faults w) = Some e ->
     writeFileSync env p c w
     = (inl e, mkWorld (cache w) (stable w) (sizes w) (now w) (tl (faults w))
                       (EvOpen fd :: trace w)))
  /\ (hd None (faults w) = None ->
      exists mid,
        trace (snd (writeFileSync env p c w))
        = EvClose fd :: mid ++ EvOpen fd :: trace w
        /\ (mid = [EvWrite fd c] \/ mid = [EvFsync fd; EvWrite fd c])
        /\ (fst (writeFileSync env p c w) = inr tt ->
            mid = [EvFsync fd; EvWrite fd c])).
Proof.
  intros fd. subst fd. destruct w as [ch st sz n f tr].
  unfold writeFileSync. cbn [faults hd tl cache stable sizes now trace].
  split.
  - intros e Hf. destruct f as [|[e1|] f]; try discriminate Hf.
    injection Hf as ->. reflexivity.
  - intros Hf.
    destruct f as [|[e1|] [|[e2|] [|[e3|] [|[e4|] f]]]];
      try discriminate Hf; run;
      first [ exists [EvFsync (abspath env p); EvWrite (abspath env p) c];
              split; [reflexivity|]; split; [right; reflexivity|];
              intros _; reflexivity
            | exists [EvWrite (abspath env p) c];
              split; [reflexivity|]; split; [left; reflexivity|];
              intros H; discriminate H ].
Qed.

Lemma writeFileSync_closes_witness :
  exists mid,
    trace (snd (writeFileSync Sample.env (lit "/tmp/a.svg") (lit "<svg/>")
                  (Sample.withFaults [None; Some (Error (lit "EIO"))]
                                     (Sample.world [] []))))
    = EvClose (lit "/tmp/a.svg") :: mid ++ [EvOpen (lit "/tmp/a.svg")]
    /\ (mid = [EvWrite (lit "/tmp/a.svg") (lit "<svg/>")]
        \/ mid = [EvFsync (lit "/tmp/a.svg");
                  EvWrite (lit "/tmp/a.svg") (lit "<svg/>")]).
Proof.
  destruct (proj2 (@writeFileSync_closes Sample.env (lit "/tmp/a.svg")
                     (lit "<svg/>")
                     (Sample.withFaults [None; Some (Error (lit "EIO"))]
                                        (Sample.world [] []))) eq_refl)
    as (mid & H1 & H2 & _).
  exists mid. split; [exact H1 | exact H2].
Defined.



(* ================================================================== *)
(** * The generated page *)
(* ================================================================== *)

(** The three passes of the escaping, as one pass. *)
Lemma escapeMarkdown_cons (c : char) (r : jsstring) :
  escapeMarkdown (c :: r)
  = (if char_eqb c BACKSLASH || char_eqb c BACKTICK || char_eqb c DOLLAR
     then [BACKSLASH; c] else [c]) ++ escapeMarkdown r.
Proof.
  unfold escapeMarkdown, char_eqb, BACKSLASH, BACKTICK, DOLLAR.
  cbn [replaceChar]. unfold char_eqb.
  destruct (N.eqb_spec c 92) as [->|H1]; [reflexivity|].
  cbn [replaceChar]. unfold char_eqb.
  destruct (N.eqb_spec c 96) as [->|H2]; [reflexivity|].
  cbn [replaceChar]. unfold char_eqb.
  destruct (N.eqb_spec c 36) as [->|H3]; reflexivity.
Qed.

Lemma templateValue_escape_len (n : nat) :
  forall s, (List.length s <= n)%nat ->
  templateValue (escapeMarkdown s) = Some (normalizeNewlines s).
Proof.
  induction n as [|n IH]; intros s Hn.
  - destruct s; [reflexivity | simpl in Hn; lia].
  - destruct s as [|c r]; [reflexivity|]. simpl in Hn.
    rewrite escapeMarkdown_cons.
    destruct (char_eqb c BACKSLASH || char_eqb c BACKTICK
              || char_eqb c DOLLAR) eqn:E.
    + cbn [app templateValue]. unfold char_eqb at 1, BACKSLASH at 1.
      rewrite N.eqb_refl. rewrite E, IH by lia. cbn [option_map].
      cbn [normalizeNewlines].
      replace (char_eqb c CR) with false; [reflexivity|].
      unfold char_eqb, BACKSLASH, BACKTICK, DOLLAR, CR in *.
      bool_to_prop; subst; reflexivity.
    + apply orb_false_iff in E. destruct E as [E E3].
      apply orb_false_iff in E. destruct E as [E1 E2].
      cbn [app templateValue normalizeNewlines]. rewrite E1, E2, E3.
      destruct (char_eqb c CR) eqn:E4.
      * destruct r as [|d r'].
        -- reflexivity.
        -- rewrite escapeMarkdown_cons.
           destruct (char_eqb d LF) eqn:E5.
           ++ replace (char_eqb d BACKSLASH || char_eqb d BACKTICK
                       || char_eqb d DOLLAR) with false.
              2:{ unfold char_eqb, BACKSLASH, BACKTICK, DOLLAR, LF in *.
                  bool_to_prop; subst; reflexivity. }
              cbn [app]. rewrite E5, IH by (simpl in *; lia). reflexivity.
           ++ rewrite <- escapeMarkdown_cons.
              assert (Hd : match escapeMarkdown (d :: r') with
                           | [] => false
                           | x :: _ => char_eqb x LF
                           end = false).
              { rewrite escapeMarkdown_cons.
                destruct (char_eqb d BACKSLASH || char_eqb d BACKTICK
                          || char_eqb d DOLLAR); [reflexivity | exact E5]. }
              destruct (escapeMarkdown (d :: r')) as [|x xs] eqn:EX.
              ** rewrite escapeMarkdown_cons in EX.
                 destruct (char_eqb d BACKSLASH || char_eqb d BACKTICK
                           || char_eqb d DOLLAR); discriminate EX.
              ** rewrite Hd, <- EX, IH by (simpl in *; lia). reflexivity.
      * rewrite IH by lia. reflexivity.
Qed.

(** X12. The escaping of generateHtml is sound for the template literal it is
    placed in: the literal made of the escaped Markdown has no substitution
    and does not end early, and its value is the Markdown, line endings
    normalised to line feeds.  (This is the literal as JavaScript reads it;
    how the browser finds the end of the script element is not modelled.) *)
Theorem escapeMarkdown_template_value (markdownContent : jsstring) :
  templateValue (escapeMarkdown markdownContent)
  = Some (normalizeNewlines markdownContent).
Proof.
  apply templateValue_escape_len with (n := List.length markdownContent). lia.
Qed.

(* ================================================================== *)
(** * The tools: answers, validation order and responses *)
(* ================================================================== *)

(** X13. No exception escapes a tool: every run of renderFile, fromOutline and
    customize ends with a response, whatever the handler, the saver and the
    file system do; an error response of renderFile is a ValidationError, a
    FileSystemError or a RenderError, one of fromOutline or customize a
    ValidationError or a RenderError. *)
Theorem tools_always_answer env save w :
  (forall input, exists res w',
     RenderFile.renderFileTool env save input w = (inr res, w')
     /\ toolErrorKind res)
  /\ (forall input, exists res w',
        FromOutline.fromOutlineTool env save input w = (inr res, w')
        /\ toolErrorKind res /\ notFileSystemError res)
  /\ (forall input, exists res w',
        Customize.customizeTool env save input w = (inr res, w')
        /\ toolErrorKind res /\ notFileSystemError res).
Proof.
  split; [|split]; intros input.
  - assert (A : exists res w',
               RenderFile.renderFileTool env save input w = (inr res, w'))
      by (unfold RenderFile.renderFileTool; apply tryCatch_answers).
    destruct A as (res & w' & E). exists res, w'. split; [exact E|].
    exact (@renderFileTool_kind _ _ _ _ _ _ E).
  - assert (A : exists res w',
               FromOutline.fromOutlineTool env save input w = (inr res, w'))
      by (unfold FromOutline.fromOutlineTool; apply tryCatch_answers).
    destruct A as (res & w' & E). exists res, w'. split; [exact E|]. split.
    + exact (@fromOutlineTool_kind _ _ _ _ _ _ E).
    + exact (@fromOutlineTool_no_fs_error _ _ _ _ _ _ E).
  - assert (A : exists res w',
               Customize.customizeTool env save input w = (inr res, w'))
      by (unfold Customize.customizeTool; apply tryCatch_answers).
    destruct A as (res & w' & E). exists res, w'. split; [exact E|]. split.
    + exact (@customizeTool_kind _ _ _ _ _ _ E).
    + exact (@customizeTool_no_fs_error _ _ _ _ _ _ E).
Qed.











(** X18. The error of fromOutline names the first item that breaks an
    invariant, counting from 1, and says which: an empty (or blank) text is
    reported before a level out of range.  Nothing has been done to the
    world. *)
Theorem fromOutlineTool_first_offender env save input w s k item :
  sanitizeAgentId (FromOutline.agent_id input) = inr s ->
  nth_error (FromOutline.outline_items input) k = Some item ->
  Forall itemOk (firstn k (FromOutline.outline_items input)) ->
  ~ itemOk item ->
  FromOutline.fromOutlineTool env save input w
  = (inr (ToolError
            (lit "Error: Outline item " ++ numToString (N.of_nat k + 1)
             ++ (if blank (text item)
                 then lit " has empty text"
                 else lit " has invalid level (must be 1-6)"))
            ValidationError), w).
Proof.
  intros Hs Hk Hok Hbad. unfold FromOutline.fromOutlineTool, tryCatch.
  rewrite Hs.
  replace (List.length (FromOutline.outline_items input) =? 0)%nat with false
    by (destruct (FromOutline.outline_items input);
        [destruct k; discriminate Hk | reflexivity]).
  assert (V : forall items i k,
            nth_error items k = Some item ->
            Forall itemOk (firstn k items) ->
            FromOutline.validateItems i items
            = Some (ToolError
                (lit "Error: Outline item "
                 ++ numToString (i + N.of_nat k + 1)
                 ++ (if blank (text item)
                     then lit " has empty text"
                     else lit " has invalid level (must be 1-6)"))
                ValidationError)).
  { clear Hk Hok. induction items as [|it items IH]; intros i k' Hk Hok.
    - destruct k'; discriminate Hk.
    - destruct k' as [|k'].
      + injection Hk as ->. cbn [FromOutline.validateItems].
        rewrite N.add_0_r. unfold FromOutline.badText.
        destruct (blank (text item)) eqn:B; [reflexivity|].
        destruct (FromOutline.badLevel item) eqn:L; [reflexivity|].
        exfalso. apply Hbad, itemOk_tests. split; assumption.
      + cbn [firstn] in Hok. inversion Hok as [|? ? Hit Hrest]; subst.
        apply itemOk_tests in Hit. destruct Hit as [Ht Hl].
        cbn [FromOutline.validateItems]. rewrite Ht, Hl.
        rewrite (IH (i + 1)%N k' Hk Hrest).
        replace (i + 1 + N.of_nat k' + 1)%N with (i + N.of_nat (S k') + 1)%N
          by (rewrite Nat2N.inj_succ; lia).
        reflexivity. }
  rewrite (V _ 0%N k Hk Hok). reflexivity.
Qed.

Lemma fromOutlineTool_first_offender_witness :
  FromOutline.fromOutlineTool Sample.env (saveOutputs Sample.env)
    (FromOutline.mkInput (lit "agent-001")
       [mkItem (lit "AI") 1; mkItem (lit " ") 9; mkItem [] 2] None)
    (Sample.world [] [])
  = (inr (ToolError (lit "Error: Outline item 2 has empty text")
                    ValidationError), Sample.world [] []).
Proof.
  refine (@fromOutlineTool_first_offender Sample.env (saveOutputs Sample.env)
    (FromOutline.mkInput (lit "agent-001")
       [mkItem (lit "AI") 1; mkItem (lit " ") 9; mkItem [] 2] None)
    (Sample.world [] []) (lit "agent-001") 1%nat (mkItem (lit " ") 9)
    eq_refl eq_refl _ _).
  - repeat constructor; simpl; try lia. intros H; discriminate H.
  - intros [H _]. apply H. reflexivity.
Defined.

Lemma yields_call {A} ev (r : exn + A) : yields (fun a => r = inr a) (call ev r).
Proof.
  intros w a w'. unfold call, bind, log, liftE. destruct r; intros [= <- _];
    reflexivity.
Qed.

Lemma customizeTool_reflects env save input :
  yields (customizeReflects env input) (Customize.customizeTool env save input).
Proof.
  unfold Customize.customizeTool.
  apply yields_tryCatch; [|intros e; apply yields_ret; exact I].
  destruct (sanitizeAgentId _); [apply yields_ret; exact I|].
  destruct (blank _); [apply yields_ret; exact I|].
  destruct (Customize.truthy (Customize.theme input)
            && negb (Customize.includes Customize.validThemes
                       match Customize.theme input with
                       | Some t => t | None => [] end)) eqn:T;
    [apply yields_ret; exact I|].
  destruct (match Customize.color_scheme input with
            | Some cs => Customize.firstBadColor 0 cs
            | None => None
            end) as [[i c]|] eqn:C; [apply yields_ret; exact I|].
  set (theme' := if Customize.truthy (Customize.theme input)
                 then match Customize.theme input with
                      | Some t => t | None => [] end
                 else lit "default").
  assert (Hin : In theme' Customize.validThemes).
  { unfold theme'. destruct (Customize.truthy (Customize.theme input)).
    - simpl in T. apply negb_false_iff in T. apply includes_In, T.
    - simpl. auto. }
  apply yields_bind; intros _.
  apply yields_bind; intros svgc.
  apply yields_bind; intros [root feats].
  apply yields_bind; intros n.
  eapply yields_bind_strong
    with (Q := fun cu : list jsstring =>
                 match Customize.color_scheme input with
                 | Some cs => cu = cs
                 | None => getColorScheme env theme' = inr cu
                 end).
  { destruct (Customize.color_scheme input) as [cs|];
      [apply yields_ret; reflexivity | apply yields_call]. }
  intros cu Hcu. apply yields_bind; intros files. apply yields_ret.
  cbn [customizeReflects Customize.o_theme_applied Customize.o_colors_used
       Customize.o_customization_summary Customize.s_theme
       Customize.s_custom_colors].
  split; [exact Hin|]. split; [reflexivity|]. split; [reflexivity|].
  destruct (Customize.color_scheme input) as [cs|].
  - split; [exact Hcu|]. split; [apply firstBadColor_none in C; exact C|reflexivity].
  - split; [exact Hcu | reflexivity].
Qed.

(** X19. A successful customize response reflects its input: the theme applied
    is the supplied theme or "default" and always one of the four themes; with
    a colour scheme supplied, colors_used is that scheme, whatever the theme,
    and each entry is a "#RRGGBB" colour; without one, colors_used is the
    palette the handler gives for the theme applied. *)
Theorem customizeTool_output_reflects_input env save input w :
  exists res w',
    Customize.customizeTool env save input w = (inr res, w')
    /\ customizeReflects env input res.
Proof.
  assert (A : exists res w',
             Customize.customizeTool env save input w = (inr res, w'))
    by (unfold Customize.customizeTool; apply tryCatch_answers).
  destruct A as (res & w' & E). exists res, w'. split; [exact E|].
  exact (@customizeTool_reflects env save input _ _ _ E).
Qed.

(** X20. customize validates in a fixed order and answers each failure with
    its own message, the world left as it was: blank Markdown first, then a
    theme outside the four names, then the first colour, counting from 0,
    that is not "#RRGGBB". *)
Theorem customizeTool_validation_order env save input w s :
  sanitizeAgentId (Customize.agent_id input) = inr s ->
  (whitespaceOnly (Customize.markdown_content input) ->
   Customize.customizeTool env save input w
   = (inr (ToolError (lit "Error: Markdown content cannot be empty")
                     ValidationError), w))
  /\ (forall t,
        ~ whitespaceOnly (Customize.markdown_content input) ->
        Customize.theme input = Some t -> t <> [] ->
        ~ In t Customize.validThemes ->
        Customize.customizeTool env save input w
        = (inr (ToolError
                  (lit "Error: Invalid theme '" ++ t
                   ++ lit "'. Valid themes: default, dark, colorful, minimal")
                  ValidationError), w))
  /\ (forall cs k c,
        ~ whitespaceOnly (Customize.markdown_content input) ->
        (Customize.theme input = None \/ Customize.theme input = Some []
         \/ exists t, Customize.theme input = Some t
                      /\ In t Customize.validThemes) ->
        Customize.color_scheme input = Some cs ->
        nth_error cs k = Some c ->
        forallb Customize.hexColorRegex_test (firstn k cs) = true ->
        Customize.hexColorRegex_test c = false ->
        Customize.customizeTool env save input w
        = (inr (ToolError
                  (lit "Error: Invalid hex color at index "
                   ++ numToString (N.of_nat k) ++ lit ": '" ++ c
                   ++ lit "'. Use format #RRGGBB")
                  ValidationError), w)).
Proof.
  intros Hs. unfold Customize.customizeTool, tryCatch. rewrite Hs.
  assert (NB : ~ whitespaceOnly (Customize.markdown_content input) ->
               blank (Customize.markdown_content input) = false).
  { intros Hb. destruct (blank _) eqn:B;
      [apply blank_whitespaceOnly in B; contradiction | reflexivity]. }
  split; [|split].
  - intros Hb. apply blank_whitespaceOnly in Hb. rewrite Hb. reflexivity.
  - intros t Hb Ht Hne Hin. rewrite (NB Hb), Ht.
    replace (Customize.truthy (Some t)) with true
      by (destruct t; [congruence | reflexivity]).
    replace (Customize.includes Customize.validThemes t) with false
      by (destruct (Customize.includes _ t) eqn:I;
          [apply includes_In in I; contradiction | reflexivity]).
    reflexivity.
  - intros cs k c Hb Ht Hcs Hk Hpre Hc. rewrite (NB Hb), Hcs.
    replace (Customize.truthy (Customize.theme input)
             && negb (Customize.includes Customize.validThemes
                        match Customize.theme input with
                        | Some t => t | None => [] end)) with false.
    2:{ destruct Ht as [-> | [-> | (t & -> & Hin)]]; try reflexivity.
        apply includes_In in Hin. rewrite Hin. cbn [negb].
        rewrite andb_false_r. reflexivity. }
    assert (V : forall cs i k,
              nth_error cs k = Some c ->
              forallb Customize.hexColorRegex_test (firstn k cs) = true ->
              Customize.firstBadColor i cs = Some ((i + N.of_nat k)%N, c)).
    { clear Hk Hpre Hcs. induction cs0 as [|x cs0 IH]; intros i k' Hk Hpre.
      - destruct k'; discriminate Hk.
      - destruct k' as [|k'].
        + injection Hk as ->. cbn [Customize.firstBadColor]. rewrite Hc.
          rewrite N.add_0_r. reflexivity.
        + cbn [firstn forallb] in Hpre. apply andb_true_iff in Hpre.
          destruct Hpre as [Hx Hrest].
          cbn [Customize.firstBadColor]. rewrite Hx. cbn [negb].
          rewrite (IH (i + 1)%N k' Hk Hrest).
          replace (i + 1 + N.of_nat k')%N with (i + N.of_nat (S k'))%N
            by (rewrite Nat2N.inj_succ; lia).
          reflexivity. }
    rewrite (V cs 0%N k Hk Hpre). reflexivity.
Qed.

Lemma customizeTool_validation_order_witness :
  Customize.customizeTool Sample.env (saveOutputs Sample.env)
    (Customize.mkInput (lit "agent-001") (lit "# A") (Some (lit "dark"))
       (Some [lit "#FF6B6B"; lit "#ff6b6b"; lit "#FFF"; lit "red"]) None)
    (Sample.world [] [])
  = (inr (ToolError
            (lit "Error: Invalid hex color at index 2: '#FFF'. Use format #RRGGBB")
            ValidationError), Sample.world [] []).
Proof.
  refine (proj2 (proj2 (@customizeTool_validation_order Sample.env
    (saveOutputs Sample.env)
    (Customize.mkInput (lit "agent-001") (lit "# A") (Some (lit "dark"))
       (Some [lit "#FF6B6B"; lit "#ff6b6b"; lit "#FFF"; lit "red"]) None)
    (Sample.world [] []) (lit "agent-001") eq_refl))
    [lit "#FF6B6B"; lit "#ff6b6b"; lit "#FFF"; lit "red"] 2%nat (lit "#FFF")
    _ _ eq_refl eq_refl eq_refl eq_refl).
  - intros H. discriminate H.
  - right. right. exists (lit "dark"). split; [reflexivity|].
    right. left. reflexivity.
Defined.

Lemma yields_liftE {A} (r : exn + A) : yields (fun a => r = inr a) (liftE r).
Proof. intros w a w'. unfold liftE. intros [= -> _]. reflexivity. Qed.

Lemma validateItems_None (items : list OutlineItem) (i : N) :
  FromOutline.validateItems i items = None -> Forall itemOk items.
Proof.
  revert i; induction items as [|it items IH]; intros i; [constructor|].
  cbn [FromOutline.validateItems].
  destruct (FromOutline.badText it) eqn:T; [discriminate|].
  destruct (FromOutline.badLevel it) eqn:L; [discriminate|].
  intros H. constructor; [apply itemOk_tests; split; assumption | exact (IH _ H)].
Qed.

Lemma fromOutlineTool_reflects env save input :
  yields (fromOutlineReflects env input)
         (FromOutline.fromOutlineTool env save input).
Proof.
  unfold FromOutline.fromOutlineTool.
  apply yields_tryCatch; [|intros e; apply yields_ret; exact I].
  destruct (sanitizeAgentId _); [apply yields_ret; exact I|].
  destruct (List.length (FromOutline.outline_items input) =? 0)%nat eqn:L;
    [apply yields_ret; exact I|].
  destruct (FromOutline.validateItems 0 _) as [r|] eqn:V.
  { apply validateItems_kind in V. destruct V as [t ->].
    apply yields_ret. exact I. }
  eapply yields_bind_strong; [apply yields_call|]. intros md Hmd.
  apply yields_bind; intros _.
  eapply yields_bind_strong; [apply yields_call|]. intros [root feats] Hp.
  eapply yields_bind_strong; [apply yields_liftE|]. intros n Hn.
  eapply yields_bind_strong; [apply yields_liftE|]. intros d Hd.
  eapply yields_bind_strong; [apply yields_call|]. intros svgc Hr.
  apply yields_bind; intros files. apply yields_ret.
  cbn [fromOutlineReflects FromOutline.o_markdown_generated
       FromOutline.o_svg_content FromOutline.o_node_count FromOutline.o_depth
       FromOutline.o_features_used].
  split; [exact (validateItems_None _ _ V)|].
  split; [intros E; rewrite E in L; discriminate L|].
  split; [exact Hmd|]. split; [exact Hr|].
  exists root, feats. auto.
Qed.

(** X21. A successful fromOutline response is the composition of its steps on
    validated input: the items are not empty and all satisfy the invariants,
    the Markdown returned is what outlineToMarkdown made of them, the SVG is
    the rendering of that Markdown with the options given, and the node
    count, the depth and the features are those of its parse. *)
Theorem fromOutlineTool_output_reflects_input env save input w :
  exists res w',
    FromOutline.fromOutlineTool env save input w = (inr res, w')
    /\ fromOutlineReflects env input res.
Proof.
  assert (A : exists res w',
             FromOutline.fromOutlineTool env save input w = (inr res, w'))
    by (unfold FromOutline.fromOutlineTool; apply tryCatch_answers).
  destruct A as (res & w' & E). exists res, w'. split; [exact E|].
  exact (@fromOutlineTool_reflects env save input _ _ _ E).
Qed.
